(** * MPC-CBF: model predictive control with a control barrier function

    A shallow embedding of [mpc_cbf.py] (class [MPC]) and of the older
    variant [mpc-cbf.py], with the properties of the kinematic model, of the
    safety constraints, of the reference parameters and of the closed loop.

    Conventions.
    - Python floats are read as real numbers ([R] of the Standard Library):
      the constraints are CasADi symbolic expressions, which denote real
      functions of the model's symbols.
    - A CasADi [SX] scalar is a term of the inductive type [casadi.SX]; the
      terms are built in the order in which the Python source applies the
      operators, and their meaning is given by [casadi.eval].
    - A column vector (shape (n,1)) is a list of scalars, a matrix a list of
      rows.
    - The objects of do_mpc (model, controller, simulator, estimator) are
      records of what the program configures on them.  The checks that
      do_mpc and CasADi make on what they receive (shapes, a parameter
      function for every declared parameter, a positive horizon) are not
      part of the embedding: [__init__ cfg = Ok obj] says that no line of
      the class raised, and the statements about an assembled object are
      about the objects the program does assemble.
    - The module [config] of the repository is a record of its constants.
    - Attribute and key lookups that Python resolves at run time return in
      the error monad [result]. *)

From Stdlib Require Import Reals Lra Lia List String ZArith Bool.
From Stdlib Require Import DecimalString.
From Stdlib Require DecimalNat.
Import ListNotations.

Open Scope R_scope.

(** Real numbers under a name that the fields [R] (input cost matrix) of the
    configuration and of the class do not hide. *)
Definition real : Set := R.

(* ================================================================= *)
(** ** Python run-time errors *)

Inductive exn : Set :=
| AttributeError (attr : string)
| KeyError (key : string)
| UnboundLocalError (name : string)
| IndexError.

Inductive result (A : Type) : Type :=
| Ok (a : A)
| Raise (e : exn).
Arguments Ok {A} a.
Arguments Raise {A} e.

Definition bind {A B : Type} (m : result A) (k : A -> result B) : result B :=
  match m with
  | Ok a => k a
  | Raise e => Raise e
  end.

Notation "x <- m ;; k" := (bind m (fun x => k))
  (at level 61, m at next level, right associativity).

(** [self.name] for an attribute that [__init__] sets only on some branch. *)
Definition getattr {A : Type} (name : string) (field : option A) : result A :=
  match field with
  | Some a => Ok a
  | None => Raise (AttributeError name)
  end.

(** [d[key]] on a dictionary kept as an association list. *)
Fixpoint getitem {A : Type} (d : list (string * A)) (key : string) : result A :=
  match d with
  | [] => Raise (KeyError key)
  | (k, a) :: d' => if String.eqb k key then Ok a else getitem d' key
  end.

(** [v[i]] on a Python sequence. *)
Definition index {A : Type} (v : list A) (i : nat) : result A :=
  match nth_error v i with
  | Some a => Ok a
  | None => Raise IndexError
  end.

(** Python's [str(i)] for a non-negative integer. *)
Definition str (i : nat) : string := NilEmpty.string_of_uint (Nat.to_uint i).

(** Python's [range(n)]. *)
Definition range (n : Z) : list Z := map Z.of_nat (seq 0 (Z.to_nat n)).

(* ================================================================= *)
(** ** CasADi symbolic expressions *)

Module casadi.

(** A scalar symbol: entry [idx] of the variable [var_name] of kind
    [var_type] ("_x", "_u" or "_tvp"). *)
Record sym : Set := Sym { var_type : string; var_name : string; idx : nat }.

Inductive SX : Set :=
| SXsym (s : sym)
| SXconst (c : real)
| SXneg (a : SX)
| SXadd (a b : SX)
| SXsub (a b : SX)
| SXmul (a b : SX)
| SXdiv (a b : SX)
| SXpow (a : SX) (n : nat)
| SXcos (a : SX)
| SXsin (a : SX)
| SXatan2 (a b : SX).

Definition vector : Set := list SX.
Definition matrix : Set := list (list SX).

(** [SX.sym(name, n, 1)] as do_mpc creates it for a variable. *)
Definition symbols (vt name : string) (n : nat) : vector :=
  map (fun i => SXsym (Sym vt name i)) (seq 0 n).

(** [SX.zeros(rows, cols)]. *)
Definition zeros (rows cols : nat) : matrix :=
  repeat (repeat (SXconst 0) cols) rows.

Fixpoint update {A : Type} (l : list A) (i : nat) (f : A -> A) : list A :=
  match l, i with
  | [], _ => []
  | a :: l', O => f a :: l'
  | a :: l', S i' => a :: update l' i' f
  end.

(** [B[i, j] = e]; the source only writes inside the shape. *)
Definition setitem (B : matrix) (i j : nat) (e : SX) : matrix :=
  update B i (fun row => update row j (fun _ => e)).

(** Sum of the entrywise products of two lists of scalars. *)
Definition dot (a b : list SX) : SX :=
  match combine a b with
  | [] => SXconst 0
  | (p, q) :: rest =>
      fold_left (fun acc pq => SXadd acc (SXmul (fst pq) (snd pq)))
                rest (SXmul p q)
  end.

(** [B @ u] for a matrix and a column vector. *)
Definition mtimes (B : matrix) (u : vector) : vector :=
  map (fun row => dot row u) B.

(** [v * c] for a column vector and a float. *)
Definition scale (v : vector) (c : real) : vector :=
  map (fun e => SXmul e (SXconst c)) v.

(** [a + b] and [a - b] for column vectors of one shape. *)
Definition vadd (a b : vector) : vector :=
  map (fun pq => SXadd (fst pq) (snd pq)) (combine a b).

(** [x - g] for a column vector and a numeric array. *)
Definition vsub_num (a : vector) (g : list real) : vector :=
  map (fun pq => SXsub (fst pq) (SXconst (snd pq))) (combine a g).

(** Column [j] of a numeric matrix. *)
Definition column (Q : list (list real)) (j : nat) : list SX :=
  map (fun row => SXconst (nth j row 0)) Q.

(** [transpose(X) @ Q @ X] for a column vector [X] and a numeric matrix
    [Q]: first the row vector [transpose(X) @ Q], then its product with
    [X]. *)
Definition quad_form (X : vector) (Q : list (list real)) : SX :=
  dot (map (fun j => dot X (column Q j)) (seq 0 (List.length X))) X.

(** The two-argument arc tangent [atan2(y, x)]. *)
Definition atan2 (y x : R) : R :=
  if Rlt_dec 0 x then atan (y / x)
  else if Rlt_dec x 0 then
    if Rle_dec 0 y then atan (y / x) + PI else atan (y / x) - PI
  else if Rlt_dec 0 y then PI / 2
  else if Rlt_dec y 0 then - (PI / 2)
  else 0.

(** An assignment of numbers to the symbols. *)
Definition env : Type := sym -> R.

Fixpoint eval (e : env) (s : SX) : R :=
  match s with
  | SXsym v => e v
  | SXconst c => c
  | SXneg a => - eval e a
  | SXadd a b => eval e a + eval e b
  | SXsub a b => eval e a - eval e b
  | SXmul a b => eval e a * eval e b
  | SXdiv a b => eval e a / eval e b
  | SXpow a n => eval e a ^ n
  | SXcos a => cos (eval e a)
  | SXsin a => sin (eval e a)
  | SXatan2 a b => atan2 (eval e a) (eval e b)
  end.

Definition eval_vector (e : env) (v : vector) : list R := map (eval e) v.

(** Whether an expression mentions a symbol of the given kind. *)
Fixpoint mentions (vt : string) (s : SX) : bool :=
  match s with
  | SXsym v => String.eqb (var_type v) vt
  | SXconst _ => false
  | SXneg a | SXcos a | SXsin a | SXpow a _ => mentions vt a
  | SXadd a b | SXsub a b | SXmul a b | SXdiv a b | SXatan2 a b =>
      mentions vt a || mentions vt b
  end.

End casadi.

Notation "' pat <- m ;; k" :=
  (bind m (fun x => match x with pat => k end))
  (at level 61, pat pattern, m at next level, right associativity).

(** Monadic map: a [for] loop that appends one result per element. *)
Fixpoint mapM {A B : Type} (f : A -> result B) (l : list A) : result (list B) :=
  match l with
  | [] => Ok []
  | a :: l' => b <- f a ;; bs <- mapM f l' ;; Ok (b :: bs)
  end.

(* ================================================================= *)
(** ** The configuration module *)

(** An obstacle [(x_obs, y_obs, r_obs)]. *)
Definition obstacle : Set := (real * real * real)%type.

Module config.

(** The constants that the program reads from [config]. *)
Record t : Set := mk {
  sim_time : Z;
  Ts : real;
  T_horizon : nat;
  x0 : list real;
  v_limit : real;
  omega_limit : real;
  obstacles_on : bool;
  obs : list obstacle;
  r : real;
  control_type : string;
  goal : list real;
  gamma : real;
  controller : string;
  trajectory : string;
  A : real;
  w : real;
  Q : list (list real);
  R : list (list real)
}.

End config.

(* ================================================================= *)
(** ** The do_mpc objects, as far as the program configures them *)

Module do_mpc.

Module model.
Import casadi.

Record Model : Set := mk {
  model_type : string;
  x : list (string * vector);
  u : list (string * vector);
  tvp : list (string * vector);
  rhs_list : list (string * vector);
  aux : list (string * SX);
  flag_setup : bool
}.

(** [do_mpc.model.Model(model_type)]. *)
Definition new (model_type : string) : Model :=
  mk model_type [] [] [] [] [] false.

(** [model.set_variable(var_type, var_name, shape=(n, 1))]: registers
    fresh symbols and returns them. *)
Definition set_variable (m : Model) (var_type var_name : string) (n : nat)
  : result (Model * vector) :=
  let v := symbols var_type var_name n in
  if String.eqb var_type "_x" then
    Ok (mk (model_type m) (x m ++ [(var_name, v)]) (u m) (tvp m)
           (rhs_list m) (aux m) (flag_setup m), v)
  else if String.eqb var_type "_u" then
    Ok (mk (model_type m) (x m) (u m ++ [(var_name, v)]) (tvp m)
           (rhs_list m) (aux m) (flag_setup m), v)
  else if String.eqb var_type "_tvp" then
    Ok (mk (model_type m) (x m) (u m) (tvp m ++ [(var_name, v)])
           (rhs_list m) (aux m) (flag_setup m), v)
  else Raise (KeyError var_type).

(** [model.set_rhs(var_name, expr, process_noise=False)]. *)
Definition set_rhs (m : Model) (var_name : string) (expr : vector) : Model :=
  mk (model_type m) (x m) (u m) (tvp m)
     (rhs_list m ++ [(var_name, expr)]) (aux m) (flag_setup m).

(** [model.set_expression(expr_name, expr)]. *)
Definition set_expression (m : Model) (expr_name : string) (expr : SX)
  : Model :=
  mk (model_type m) (x m) (u m) (tvp m) (rhs_list m)
     (aux m ++ [(expr_name, expr)]) (flag_setup m).

(** [model.setup()]. *)
Definition setup (m : Model) : Model :=
  mk (model_type m) (x m) (u m) (tvp m) (rhs_list m) (aux m) true.

(** [d[name, i]]: entry [i] of the variable [name]. *)
Definition getentry (d : list (string * vector)) (name : string) (i : nat)
  : result SX :=
  v <- getitem d name ;; index v i.

End model.

(** The numeric structure of the time-varying parameters at one stage:
    a value for every declared name. *)
Definition tvp_values : Set := list (string * real).

(** [s[name] = v] on such a structure. *)
Fixpoint assign (s : tvp_values) (name : string) (v : real)
  : result tvp_values :=
  match s with
  | [] => Raise (KeyError name)
  | (k, a) :: s' =>
      if String.eqb k name then Ok ((k, v) :: s')
      else s'' <- assign s' name v ;; Ok ((k, a) :: s'')
  end.

(** The all-zero structure over the time-varying parameters of a model. *)
Definition tvp_zero (m : model.Model) : tvp_values :=
  map (fun kv => (fst kv, 0)) (model.tvp m).

Module controller.
Import casadi.

Record nl_cons : Set := mk_nl_cons {
  expr_name : string;
  expr : SX;
  ub : real
}.

(** The horizon-indexed structure [tvp_struct['_tvp', k, name]]. *)
Definition tvp_struct : Set := list tvp_values.

Record MPC : Type := mk {
  model : model.Model;
  n_robust : nat;
  n_horizon : nat;
  t_step : real;
  state_discretization : string;
  store_full_solution : bool;
  mterm : option SX;
  lterm : option SX;
  rterm_u : option (list (list real));
  bounds_lower_u : option (list real);
  bounds_upper_u : option (list real);
  nl_cons_list : list nl_cons;
  tvp_fun : option (real -> tvp_struct -> result tvp_struct);
  x0 : option (list real);
  flag_setup : bool
}.

(** [do_mpc.controller.MPC(model)]. *)
Definition new (m : model.Model) : MPC :=
  mk m 0 0 0 "" false None None None None None [] None None false.

(** [mpc.set_param(n_robust=.., n_horizon=.., t_step=..,
    state_discretization=.., store_full_solution=..)]. *)
Definition set_param (c : MPC) (n_robust n_horizon : nat) (t_step : real)
  (state_discretization : string) (store_full_solution : bool) : MPC :=
  mk (model c) n_robust n_horizon t_step state_discretization
     store_full_solution (mterm c) (lterm c) (rterm_u c)
     (bounds_lower_u c) (bounds_upper_u c) (nl_cons_list c) (tvp_fun c)
     (x0 c) (flag_setup c).

(** [mpc.set_objective(mterm=.., lterm=..)]. *)
Definition set_objective (c : MPC) (mterm lterm : SX) : MPC :=
  mk (model c) (n_robust c) (n_horizon c) (t_step c)
     (state_discretization c) (store_full_solution c)
     (Some mterm) (Some lterm) (rterm_u c)
     (bounds_lower_u c) (bounds_upper_u c) (nl_cons_list c) (tvp_fun c)
     (x0 c) (flag_setup c).

(** [mpc.set_rterm(u=..)]. *)
Definition set_rterm (c : MPC) (u : list (list real)) : MPC :=
  mk (model c) (n_robust c) (n_horizon c) (t_step c)
     (state_discretization c) (store_full_solution c)
     (mterm c) (lterm c) (Some u)
     (bounds_lower_u c) (bounds_upper_u c) (nl_cons_list c) (tvp_fun c)
     (x0 c) (flag_setup c).

(** [mpc.bounds['lower', '_u', 'u'] = b]. *)
Definition set_bounds_lower_u (c : MPC) (b : list real) : MPC :=
  mk (model c) (n_robust c) (n_horizon c) (t_step c)
     (state_discretization c) (store_full_solution c)
     (mterm c) (lterm c) (rterm_u c)
     (Some b) (bounds_upper_u c) (nl_cons_list c) (tvp_fun c)
     (x0 c) (flag_setup c).

(** [mpc.bounds['upper', '_u', 'u'] = b]. *)
Definition set_bounds_upper_u (c : MPC) (b : list real) : MPC :=
  mk (model c) (n_robust c) (n_horizon c) (t_step c)
     (state_discretization c) (store_full_solution c)
     (mterm c) (lterm c) (rterm_u c)
     (bounds_lower_u c) (Some b) (nl_cons_list c) (tvp_fun c)
     (x0 c) (flag_setup c).

(** [mpc.set_nl_cons(expr_name, expr, ub=ub)]: one more inequality
    [expr <= ub]. *)
Definition set_nl_cons (c : MPC) (expr_name : string) (expr : SX)
  (ub : real) : MPC :=
  mk (model c) (n_robust c) (n_horizon c) (t_step c)
     (state_discretization c) (store_full_solution c)
     (mterm c) (lterm c) (rterm_u c)
     (bounds_lower_u c) (bounds_upper_u c)
     (nl_cons_list c ++ [mk_nl_cons expr_name expr ub]) (tvp_fun c)
     (x0 c) (flag_setup c).

(** [mpc.get_tvp_template()]: one zero structure per stage
    [k = 0, ..., n_horizon]. *)
Definition get_tvp_template (c : MPC) : tvp_struct :=
  repeat (tvp_zero (model c)) (S (n_horizon c)).

(** [tvp_struct['_tvp', :, name] = v]: the assignment at every stage. *)
Definition assign_all (s : tvp_struct) (name : string) (v : real)
  : result tvp_struct :=
  mapM (fun stage => assign stage name v) s.

(** [mpc.set_tvp_fun(f)]. *)
Definition set_tvp_fun (c : MPC)
  (f : real -> tvp_struct -> result tvp_struct) : MPC :=
  mk (model c) (n_robust c) (n_horizon c) (t_step c)
     (state_discretization c) (store_full_solution c)
     (mterm c) (lterm c) (rterm_u c)
     (bounds_lower_u c) (bounds_upper_u c) (nl_cons_list c) (Some f)
     (x0 c) (flag_setup c).

(** [mpc.x0 = x0]. *)
Definition set_x0 (c : MPC) (v : list real) : MPC :=
  mk (model c) (n_robust c) (n_horizon c) (t_step c)
     (state_discretization c) (store_full_solution c)
     (mterm c) (lterm c) (rterm_u c)
     (bounds_lower_u c) (bounds_upper_u c) (nl_cons_list c) (tvp_fun c)
     (Some v) (flag_setup c).

(** [mpc.setup()]. *)
Definition setup (c : MPC) : MPC :=
  mk (model c) (n_robust c) (n_horizon c) (t_step c)
     (state_discretization c) (store_full_solution c)
     (mterm c) (lterm c) (rterm_u c)
     (bounds_lower_u c) (bounds_upper_u c) (nl_cons_list c) (tvp_fun c)
     (x0 c) true.

End controller.

Module simulator.

Record Simulator : Type := mk {
  model : model.Model;
  t_step : option real;
  tvp_fun : option (real -> tvp_values);
  x0 : option (list real);
  flag_setup : bool
}.

(** [do_mpc.simulator.Simulator(model)]. *)
Definition new (m : model.Model) : Simulator := mk m None None None false.

(** [simulator.set_param(t_step=..)]. *)
Definition set_param (s : Simulator) (t_step : real) : Simulator :=
  mk (model s) (Some t_step) (tvp_fun s) (x0 s) (flag_setup s).

(** [simulator.get_tvp_template()]. *)
Definition get_tvp_template (s : Simulator) : tvp_values :=
  tvp_zero (model s).

(** [simulator.set_tvp_fun(f)]. *)
Definition set_tvp_fun (s : Simulator) (f : real -> tvp_values)
  : Simulator :=
  mk (model s) (t_step s) (Some f) (x0 s) (flag_setup s).

(** [simulator.x0 = x0]. *)
Definition set_x0 (s : Simulator) (v : list real) : Simulator :=
  mk (model s) (t_step s) (tvp_fun s) (Some v) (flag_setup s).

(** [simulator.setup()]. *)
Definition setup (s : Simulator) : Simulator :=
  mk (model s) (t_step s) (tvp_fun s) (x0 s) true.

End simulator.

Module estimator.

Record StateFeedback : Set := mk {
  model : model.Model;
  x0 : option (list real)
}.

(** [do_mpc.estimator.StateFeedback(model)]. *)
Definition new (m : model.Model) : StateFeedback := mk m None.

(** [estimator.x0 = x0]. *)
Definition set_x0 (s : StateFeedback) (v : list real) : StateFeedback :=
  mk (model s) (Some v).

End estimator.

End do_mpc.

(* ================================================================= *)
(** ** [mpc_cbf.py]: class [MPC] *)

Module mpc_cbf.
Import casadi.
Import do_mpc.

(** The attributes that [__init__] copies from the configuration.  [obs]
    and [r] exist only when obstacles are on, [goal] only in set-point
    mode. *)
Record attrs : Set := mk_attrs {
  sim_time : Z;
  Ts : real;
  T_horizon : nat;
  x0 : list real;
  v_limit : real;
  omega_limit : real;
  Q : list (list real);
  obstacles_on : bool;
  obs : option (list obstacle);
  r : option real;
  control_type : string;
  goal : option (list real);
  gamma : real;
  R : list (list real)
}.

(** The object after [__init__]; the methods below receive [self.model]
    (and [self.mpc]) as explicit arguments. *)
Record MPC : Type := mk_MPC {
  self_attrs : attrs;
  model : model.Model;
  mpc : controller.MPC;
  simulator : simulator.Simulator;
  estimator : estimator.StateFeedback
}.

(** The constant [a] of [get_sys_matrix_B]. *)
Definition a : real := 1e-9.

(** [get_sys_matrix_B(self, x)]. *)
Definition get_sys_matrix_B (x : vector) : result matrix :=
  let B := zeros 3 2 in
  x2 <- index x 2 ;;
  let B := setitem B 0 0 (SXcos x2) in
  x2 <- index x 2 ;;
  let B := setitem B 0 1 (SXmul (SXconst (- a)) (SXsin x2)) in
  x2 <- index x 2 ;;
  let B := setitem B 1 0 (SXsin x2) in
  x2 <- index x 2 ;;
  let B := setitem B 1 1 (SXmul (SXconst a) (SXcos x2)) in
  let B := setitem B 2 1 (SXconst 1) in
  Ok B.

(** [h(self, x, obstacle)]. *)
Definition h (self : attrs) (x : vector) (obstacle : obstacle) : result SX :=
  let '(x_obs, y_obs, r_obs) := obstacle in
  x_0 <- index x 0 ;;
  x_1 <- index x 1 ;;
  self_r <- getattr "r" (r self) ;;
  Ok (SXsub (SXadd (SXpow (SXsub x_0 (SXconst x_obs)) 2)
                   (SXpow (SXsub x_1 (SXconst y_obs)) 2))
            (SXconst ((self_r + r_obs) ^ 2))).

Section with_config.

(** The imported module [config]. *)
Variable cfg : config.t.

(** [get_cost_expression(self, model)]. *)
Definition get_cost_expression (self : attrs) (model : model.Model)
  : result (model.Model * SX) :=
  ' (model, X) <-
    (if String.eqb (control_type self) "setpoint" then
       x <- getitem (model.x model) "x" ;;
       self_goal <- getattr "goal" (goal self) ;;
       Ok (model, vsub_num x self_goal)
     else
       ' (model, _) <- model.set_variable model "_tvp" "x_set_point" 1 ;;
       ' (model, _) <- model.set_variable model "_tvp" "y_set_point" 1 ;;
       x_1 <- model.getentry (model.x model) "x" 1 ;;
       y_set_point <- model.getentry (model.tvp model) "y_set_point" 0 ;;
       x_0 <- model.getentry (model.x model) "x" 0 ;;
       x_set_point <- model.getentry (model.tvp model) "x_set_point" 0 ;;
       let theta_des :=
         SXatan2 (SXsub x_1 y_set_point) (SXsub x_0 x_set_point) in
       let X := repeat (SXconst 0) 3 in
       x_0 <- model.getentry (model.x model) "x" 0 ;;
       x_set_point <- model.getentry (model.tvp model) "x_set_point" 0 ;;
       let X := update X 0 (fun _ => SXsub x_0 x_set_point) in
       x_1 <- model.getentry (model.x model) "x" 1 ;;
       y_set_point <- model.getentry (model.tvp model) "y_set_point" 0 ;;
       let X := update X 1 (fun _ => SXsub x_1 y_set_point) in
       x_2 <- model.getentry (model.x model) "x" 2 ;;
       let X := update X 2 (fun _ => SXsub x_2 theta_des) in
       Ok (model, X)) ;;
  let cost_expression := quad_form X (Q self) in
  Ok (model, cost_expression).

(** [define_model(self)]. *)
Definition define_model (self : attrs) : result model.Model :=
  let model_type := "discrete"%string in
  let model := model.new model_type in
  let n_states := 3%nat in
  ' (model, _x) <- model.set_variable model "_x" "x" n_states ;;
  let n_controls := 2%nat in
  ' (model, _u) <- model.set_variable model "_u" "u" n_controls ;;
  B <- get_sys_matrix_B _x ;;
  let x_next := vadd _x (scale (mtimes B _u) (Ts self)) in
  let model := model.set_rhs model "x" x_next in
  ' (model, cost_expr) <- get_cost_expression self model ;;
  let model := model.set_expression model "cost" cost_expr in
  let model := model.setup model in
  Ok model.

(** The local [x_k1] of [get_cbf_constraints]: the state one step ahead. *)
Definition x_k1 (self : attrs) (model : model.Model) : result vector :=
  x <- getitem (model.x model) "x" ;;
  B <- get_sys_matrix_B x ;;
  x <- getitem (model.x model) "x" ;;
  u <- getitem (model.u model) "u" ;;
  Ok (vadd x (scale (mtimes B u) (Ts self))).

(** [get_cbf_constraints(self)]. *)
Definition get_cbf_constraints (self : attrs) (model : model.Model)
  : result (list SX) :=
  x_k1 <- x_k1 self model ;;
  self_obs <- getattr "obs" (obs self) ;;
  mapM (fun obs =>
          h_k1 <- h self x_k1 obs ;;
          x <- getitem (model.x model) "x" ;;
          h_k <- h self x obs ;;
          Ok (SXadd (SXneg h_k1) (SXmul (SXconst (1 - gamma self)) h_k)))
       self_obs.

(** The loops of [add_cbf_constraints] and [add_obstacle_constraints]:
    [i = 0; for c in l: mpc.set_nl_cons(prefix + str(i), c, ub=0); i += 1]. *)
Fixpoint set_nl_cons_loop (prefix : string) (l : list SX) (i : nat)
  (mpc : controller.MPC) : controller.MPC :=
  match l with
  | [] => mpc
  | c :: l' =>
      let mpc := controller.set_nl_cons mpc (prefix ++ str i) c 0 in
      set_nl_cons_loop prefix l' (i + 1) mpc
  end.

(** [add_cbf_constraints(self, mpc)]. *)
Definition add_cbf_constraints (self : attrs) (model : model.Model)
  (mpc : controller.MPC) : result controller.MPC :=
  cbf_constraints <- get_cbf_constraints self model ;;
  Ok (set_nl_cons_loop "cbf_constraint" cbf_constraints 0 mpc).

(** The local [obs_avoid] of [add_obstacle_constraints] for one obstacle
    [x_obs, y_obs, r_obs]. *)
Definition obs_avoid (self : attrs) (model : model.Model) (obs : obstacle)
  : result SX :=
  let '(x_obs, y_obs, r_obs) := obs in
  x <- getitem (model.x model) "x" ;;
  x_0 <- index x 0 ;;
  x <- getitem (model.x model) "x" ;;
  x_1 <- index x 1 ;;
  self_r <- getattr "r" (r self) ;;
  Ok (SXadd (SXsub (SXneg (SXpow (SXsub x_0 (SXconst x_obs)) 2))
                   (SXpow (SXsub x_1 (SXconst y_obs)) 2))
            (SXconst ((self_r + r_obs) ^ 2))).

(** [add_obstacle_constraints(self, mpc)].  The controller object is
    changed in place, so the caller sees the constraints although it drops
    the returned value. *)
Definition add_obstacle_constraints (self : attrs) (model : model.Model)
  (mpc : controller.MPC) : result controller.MPC :=
  self_obs <- getattr "obs" (obs self) ;;
  constraints <- mapM (obs_avoid self model) self_obs ;;
  Ok (set_nl_cons_loop "obstacle_constraint" constraints 0 mpc).

(** The closure [tvp_fun_mpc(t_now)] of [set_tvp_for_mpc].  It writes into
    the one structure [tvp_struct_mpc] obtained from the template and
    returns that same structure: the argument is its content before the
    call, the result its content after the call and the value returned. *)
Definition tvp_fun_mpc (t_now : real) (tvp_struct_mpc : controller.tvp_struct)
  : result controller.tvp_struct :=
  let '(x_traj, y_traj) :=
    if String.eqb (config.trajectory cfg) "circular" then
      (config.A cfg * cos (config.w cfg * t_now),
       config.A cfg * sin (config.w cfg * t_now))
    else
      (config.A cfg * cos (config.w cfg * t_now)
         / (sin (config.w cfg * t_now) ^ 2 + 1),
       config.A cfg * sin (config.w cfg * t_now) * cos (config.w cfg * t_now)
         / (sin (config.w cfg * t_now) ^ 2 + 1)) in
  tvp_struct_mpc <- controller.assign_all tvp_struct_mpc "x_set_point" x_traj ;;
  tvp_struct_mpc <- controller.assign_all tvp_struct_mpc "y_set_point" y_traj ;;
  Ok tvp_struct_mpc.

(** [set_tvp_for_mpc(mpc)]. *)
Definition set_tvp_for_mpc (mpc : controller.MPC) : controller.MPC :=
  controller.set_tvp_fun mpc tvp_fun_mpc.

(** [define_mpc(self)]. *)
Definition define_mpc (self : attrs) (model : model.Model)
  : result controller.MPC :=
  let mpc := controller.new model in
  let mpc :=
    controller.set_param mpc 0 (T_horizon self) (Ts self) "discrete" true in
  mterm <- getitem (model.aux model) "cost" ;;
  lterm <- getitem (model.aux model) "cost" ;;
  let mpc := controller.set_objective mpc mterm lterm in
  let mpc := controller.set_rterm mpc (R self) in
  let max_u := [v_limit self; omega_limit self] in
  let mpc := controller.set_bounds_lower_u mpc (map Ropp max_u) in
  let mpc := controller.set_bounds_upper_u mpc max_u in
  mpc <-
    (if obstacles_on self then
       if String.eqb (config.controller cfg) "MPC-DC" then
         add_obstacle_constraints self model mpc
       else
         add_cbf_constraints self model mpc
     else Ok mpc) ;;
  let mpc :=
    if String.eqb (control_type self) "traj_tracking" then set_tvp_for_mpc mpc
    else mpc in
  let mpc := controller.setup mpc in
  Ok mpc.

(** [define_simulator(self)]. *)
Definition define_simulator (self : attrs) (model : model.Model)
  : simulator.Simulator :=
  let simulator := simulator.new model in
  let simulator := simulator.set_param simulator (Ts self) in
  let simulator :=
    if String.eqb (control_type self) "traj_tracking" then
      let tvp_template := simulator.get_tvp_template simulator in
      let tvp_fun := fun t_now : real => tvp_template in
      simulator.set_tvp_fun simulator tvp_fun
    else simulator in
  let simulator := simulator.setup simulator in
  simulator.

(** The attribute assignments at the head of [__init__]. *)
Definition init_attrs : attrs :=
  {| sim_time := config.sim_time cfg;
     Ts := config.Ts cfg;
     T_horizon := config.T_horizon cfg;
     x0 := config.x0 cfg;
     v_limit := config.v_limit cfg;
     omega_limit := config.omega_limit cfg;
     R := config.R cfg;
     Q := config.Q cfg;
     obstacles_on := config.obstacles_on cfg;
     obs := if config.obstacles_on cfg then Some (config.obs cfg) else None;
     r := if config.obstacles_on cfg then Some (config.r cfg) else None;
     control_type := config.control_type cfg;
     goal := if String.eqb (config.control_type cfg) "setpoint"
             then Some (config.goal cfg) else None;
     gamma := config.gamma cfg |}.

(** [set_init_state(self)]. *)
Definition set_init_state (o : MPC) : MPC :=
  let x0 := x0 (self_attrs o) in
  mk_MPC (self_attrs o) (model o)
         (controller.set_x0 (mpc o) x0)
         (simulator.set_x0 (simulator o) x0)
         (estimator.set_x0 (estimator o) x0).

(** [__init__(self)]. *)
Definition __init__ : result MPC :=
  let self := init_attrs in
  model <- define_model self ;;
  mpc <- define_mpc self model ;;
  let simulator := define_simulator self model in
  let estimator := estimator.new model in
  Ok (set_init_state (mk_MPC self model mpc simulator estimator)).

End with_config.

(** The assignment [e] with the symbols of the state ["x"] set to the
    entries of [x]. *)
Definition with_state (e : env) (x : list real) : env :=
  fun s =>
    if String.eqb (var_type s) "_x" && String.eqb (var_name s) "x"
    then nth (idx s) x 0 else e s.

(** The assignment that gives the state ["x"] the entries of [x], the input
    ["u"] the entries of [u] and every other symbol the value [0]. *)
Definition env_of (x u : list real) : env :=
  fun s =>
    if String.eqb (var_type s) "_x" then nth (idx s) x 0
    else if String.eqb (var_type s) "_u" then nth (idx s) u 0
    else 0.

(** *** The closed loop *)

(** One call of a [make_step] method, with its argument and its result. *)
Inductive call : Set :=
| mpc_make_step (x0 u0 : list real)
| simulator_make_step (u0 y_next : list real)
| estimator_make_step (y_next x0 : list real).

Section closed_loop.

(** The controller, the simulator and the estimator at run time: [world]
    is their joint internal state, and each [make_step] may raise. *)
Variable world : Type.
Variable self_mpc_make_step :
  world -> list real -> result (list real * world).
Variable self_simulator_make_step :
  world -> list real -> result (list real * world).
Variable self_estimator_make_step :
  world -> list real -> result (list real * world).

(** The body of the [for] loop of [run_simulation], once for every [k] of
    the range; [log] records the calls in the order in which they are
    made. *)
Fixpoint run_simulation_loop (ks : list Z) (x0 : list real) (w : world)
  (log : list call) : result (list real * world * list call) :=
  match ks with
  | [] => Ok (x0, w, log)
  | k :: ks' =>
      ' (u0, w) <- self_mpc_make_step w x0 ;;
      let log := log ++ [mpc_make_step x0 u0] in
      ' (y_next, w) <- self_simulator_make_step w u0 ;;
      let log := log ++ [simulator_make_step u0 y_next] in
      ' (x0', w) <- self_estimator_make_step w y_next ;;
      let log := log ++ [estimator_make_step y_next x0'] in
      run_simulation_loop ks' x0' w log
  end.

(** [run_simulation(self)]. *)
Definition run_simulation (self : attrs) (w : world)
  : result (list real * world * list call) :=
  let x0 := x0 self in
  run_simulation_loop (range (sim_time self)) x0 w [].

(** The cycle structure in the words of the specification: [n] cycles from
    the estimated state [x] and the internal state [w]; each cycle solves
    on the current estimated state, gives the input to the simulator, gives
    the simulator's output to the estimator, and the estimator's output is
    the state of the next cycle. *)
Inductive cycles : nat -> list real -> world -> list call ->
                   list real -> world -> Prop :=
| cycles_done x w : cycles 0 x w [] x w
| cycles_step n x w u w1 y w2 x' w3 log xf wf :
    self_mpc_make_step w x = Ok (u, w1) ->
    self_simulator_make_step w1 u = Ok (y, w2) ->
    self_estimator_make_step w2 y = Ok (x', w3) ->
    cycles n x' w3 log xf wf ->
    cycles (S n) x w
           (mpc_make_step x u :: simulator_make_step u y
              :: estimator_make_step y x' :: log) xf wf.

(** A cycle that starts from [x] and [w] and fails with [e] at one of its
    three stages. *)
Definition cycle_fails (x : list real) (w : world) (e : exn) : Prop :=
  self_mpc_make_step w x = Raise e
  \/ (exists u w1,
        self_mpc_make_step w x = Ok (u, w1)
        /\ self_simulator_make_step w1 u = Raise e)
  \/ (exists u w1 y w2,
        self_mpc_make_step w x = Ok (u, w1)
        /\ self_simulator_make_step w1 u = Ok (y, w2)
        /\ self_estimator_make_step w2 y = Raise e).

End closed_loop.

End mpc_cbf.

(* ================================================================= *)
(** ** [mpc-cbf.py]: the older variant of the class *)

Module mpc_cbf_old.
Import casadi.
Import do_mpc.

(** The head of [__init__], [get_cost_expression], [define_simulator],
    [set_init_state] and [run_simulation] have the same text in both
    files; the definitions of [mpc_cbf] stand for them. *)
Definition attrs : Set := mpc_cbf.attrs.

(** A local variable that is bound only on some branch. *)
Definition getlocal {A : Type} (name : string) (v : option A) : result A :=
  match v with
  | Some a => Ok a
  | None => Raise (UnboundLocalError name)
  end.

(** [define_model(self)], with the matrix [B] written in place. *)
Definition define_model (self : attrs) : result model.Model :=
  let model_type := "discrete"%string in
  let model := model.new model_type in
  let n_states := 3%nat in
  ' (model, _x) <- model.set_variable model "_x" "x" n_states ;;
  let n_controls := 2%nat in
  ' (model, _u) <- model.set_variable model "_u" "u" n_controls ;;
  let a : real := 1e-9 in
  let B := zeros 3 2 in
  x2 <- index _x 2 ;;
  let B := setitem B 0 0 (SXcos x2) in
  x2 <- index _x 2 ;;
  let B := setitem B 0 1 (SXmul (SXconst (- a)) (SXsin x2)) in
  x2 <- index _x 2 ;;
  let B := setitem B 1 0 (SXsin x2) in
  x2 <- index _x 2 ;;
  let B := setitem B 1 1 (SXmul (SXconst a) (SXcos x2)) in
  let B := setitem B 2 1 (SXconst 1) in
  let x_next := vadd _x (scale (mtimes B _u) (mpc_cbf.Ts self)) in
  let model := model.set_rhs model "x" x_next in
  ' (model, cost_expr) <- mpc_cbf.get_cost_expression self model ;;
  let model := model.set_expression model "cost" cost_expr in
  let model := model.setup model in
  Ok model.

(** [h(self, x)]: the barrier of the first obstacle. *)
Definition h (self : attrs) (x : vector) : result SX :=
  self_obs <- getattr "obs" (mpc_cbf.obs self) ;;
  ' (x_obs, y_obs, r_obs) <- index self_obs 0 ;;
  x_0 <- index x 0 ;;
  x_1 <- index x 1 ;;
  self_r <- getattr "r" (mpc_cbf.r self) ;;
  Ok (SXsub (SXadd (SXpow (SXsub x_0 (SXconst x_obs)) 2)
                   (SXpow (SXsub x_1 (SXconst y_obs)) 2))
            (SXconst ((self_r + r_obs) ^ 2))).

(** The local [x_k1] of [define_mpc]. *)
Definition x_k1 (self : attrs) (model : model.Model) : result vector :=
  let a : real := 1e-9 in
  let B := zeros 3 2 in
  x2 <- model.getentry (model.x model) "x" 2 ;;
  let B := setitem B 0 0 (SXcos x2) in
  x2 <- model.getentry (model.x model) "x" 2 ;;
  let B := setitem B 0 1 (SXmul (SXconst (- a)) (SXsin x2)) in
  x2 <- model.getentry (model.x model) "x" 2 ;;
  let B := setitem B 1 0 (SXsin x2) in
  x2 <- model.getentry (model.x model) "x" 2 ;;
  let B := setitem B 1 1 (SXmul (SXconst a) (SXcos x2)) in
  let B := setitem B 2 1 (SXconst 1) in
  x <- getitem (model.x model) "x" ;;
  u <- getitem (model.u model) "u" ;;
  Ok (vadd x (scale (mtimes B u) (mpc_cbf.Ts self))).

Section with_config.

Variable cfg : config.t.

(** The closure [tvp_fun_mpc(t_now)]: [x_traj] and [y_traj] are bound only
    for the circular trajectory. *)
Definition tvp_fun_mpc (t_now : real) (tvp_struct_mpc : controller.tvp_struct)
  : result controller.tvp_struct :=
  let '(x_traj, y_traj) :=
    if String.eqb (config.trajectory cfg) "circular" then
      (Some (config.A cfg * cos (config.w cfg * t_now)),
       Some (config.A cfg * sin (config.w cfg * t_now)))
    else (None, None) in
  x_traj <- getlocal "x_traj" x_traj ;;
  tvp_struct_mpc <- controller.assign_all tvp_struct_mpc "x_set_point" x_traj ;;
  y_traj <- getlocal "y_traj" y_traj ;;
  tvp_struct_mpc <- controller.assign_all tvp_struct_mpc "y_set_point" y_traj ;;
  Ok tvp_struct_mpc.

(** [set_tvp_for_mpc(mpc)]. *)
Definition set_tvp_for_mpc (mpc : controller.MPC) : controller.MPC :=
  controller.set_tvp_fun mpc tvp_fun_mpc.

(** [define_mpc(self)]: the barrier constraint is added on every path. *)
Definition define_mpc (self : attrs) (model : model.Model)
  : result controller.MPC :=
  let mpc := controller.new model in
  let mpc :=
    controller.set_param mpc 0 (mpc_cbf.T_horizon self) (mpc_cbf.Ts self)
                         "discrete" true in
  mterm <- getitem (model.aux model) "cost" ;;
  lterm <- getitem (model.aux model) "cost" ;;
  let mpc := controller.set_objective mpc mterm lterm in
  let mpc := controller.set_rterm mpc (mpc_cbf.R self) in
  let max_u := [mpc_cbf.v_limit self; mpc_cbf.omega_limit self] in
  let mpc := controller.set_bounds_lower_u mpc (map Ropp max_u) in
  let mpc := controller.set_bounds_upper_u mpc max_u in
  x_k1 <- x_k1 self model ;;
  h_k1 <- h self x_k1 ;;
  x <- getitem (model.x model) "x" ;;
  h_k <- h self x ;;
  let cbc := SXadd (SXneg h_k1) (SXmul (SXconst (1 - mpc_cbf.gamma self)) h_k) in
  let mpc := controller.set_nl_cons mpc "cbf_constraint" cbc 0 in
  let mpc :=
    if String.eqb (mpc_cbf.control_type self) "traj_tracking"
    then set_tvp_for_mpc mpc else mpc in
  let mpc := controller.setup mpc in
  Ok mpc.

(** [__init__(self)]. *)
Definition __init__ : result mpc_cbf.MPC :=
  let self := mpc_cbf.init_attrs cfg in
  model <- define_model self ;;
  mpc <- define_mpc self model ;;
  let simulator := mpc_cbf.define_simulator self model in
  let estimator := estimator.new model in
  Ok (mpc_cbf.set_init_state
        (mpc_cbf.mk_MPC self model mpc simulator estimator)).

End with_config.

End mpc_cbf_old.

(* ================================================================= *)
(** ** Notions used in the statements *)

(** The contents that the structure shared by the calls of a
    time-varying-parameter function can have: the template, and what a
    successful call leaves in it. *)
Inductive tvp_reachable
  (f : real -> do_mpc.controller.tvp_struct ->
       result do_mpc.controller.tvp_struct)
  (template : do_mpc.controller.tvp_struct)
  : do_mpc.controller.tvp_struct -> Prop :=
| tvp_reachable_template : tvp_reachable f template template
| tvp_reachable_call s t_now s' :
    tvp_reachable f template s -> f t_now s = Ok s' ->
    tvp_reachable f template s'.

(** A structure all of whose stages declare the two set-point names. *)
Definition set_point_struct (s : do_mpc.controller.tvp_struct) : Prop :=
  Forall (fun stage => map fst stage
                       = ["x_set_point"%string; "y_set_point"%string]) s.

(** A sequence of assignments, one per step, along which the inequality
    [cbc] holds at every step and the state of each next assignment is the
    value of the state update [rhs] at the previous one. *)
Inductive cbf_trajectory (rhs : casadi.vector)
  (cbc : do_mpc.controller.nl_cons) : list casadi.env -> Prop :=
| cbf_trajectory_one e : cbf_trajectory rhs cbc [e]
| cbf_trajectory_step e e' es :
    casadi.eval e (do_mpc.controller.expr cbc) <= do_mpc.controller.ub cbc ->
    (forall i, e' (casadi.Sym "_x" "x" i)
               = nth i (casadi.eval_vector e rhs) 0) ->
    cbf_trajectory rhs cbc (e' :: es) ->
    cbf_trajectory rhs cbc (e :: e' :: es).

(** A small configuration: sampling time 1, one obstacle of radius 1 at the
    origin, a point robot. *)
Definition example_config (control_type controller trajectory : string)
  (gamma : real) : config.t :=
  {| config.sim_time := 2;
     config.Ts := 1;
     config.T_horizon := 2;
     config.x0 := [2; 0; 0];
     config.v_limit := 1;
     config.omega_limit := 1;
     config.obstacles_on := true;
     config.obs := [(0, 0, 1)];
     config.r := 0;
     config.control_type := control_type;
     config.goal := [5; 0; 0];
     config.gamma := gamma;
     config.controller := controller;
     config.trajectory := trajectory;
     config.A := 1;
     config.w := 1;
     config.Q := [[1; 0; 0]; [0; 1; 0]; [0; 0; 1]];
     config.R := [[1; 0]; [0; 1]] |}.

(** A configuration for trajectory tracking without obstacles, with one
    input penalty per input. *)
Definition example_tracking_config (control_type trajectory : string)
  : config.t :=
  {| config.sim_time := 2;
     config.Ts := 1;
     config.T_horizon := 2;
     config.x0 := [0; 0; 0];
     config.v_limit := 1;
     config.omega_limit := 1;
     config.obstacles_on := false;
     config.obs := [];
     config.r := 0;
     config.control_type := control_type;
     config.goal := [5; 0; 0];
     config.gamma := 1 / 2;
     config.controller := "MPC-CBF";
     config.trajectory := trajectory;
     config.A := 1;
     config.w := 1;
     config.Q := [[1; 0; 0]; [0; 1; 0]; [0; 0; 1]];
     config.R := [[1]; [1]] |}.

(* ================================================================= *)
(** * Properties *)

Import casadi do_mpc.

(** ** The error monad and the loops *)

Lemma bind_ok {A B : Type} (m : result A) (k : A -> result B) (b : B) :
  bind m k = Ok b -> exists a, m = Ok a /\ k a = Ok b.
Proof. destruct m as [a|e]; simpl; [eauto | discriminate]. Qed.

Lemma mapM_length {A B : Type} (f : A -> result B) (l : list A) (bs : list B) :
  mapM f l = Ok bs -> List.length bs = List.length l.
Proof.
  revert bs. induction l as [|a l IH]; simpl; intros bs H.
  - now inversion H.
  - apply bind_ok in H as (b & _ & H). apply bind_ok in H as (bs' & Hbs & H).
    inversion H; subst. simpl. f_equal. now apply IH.
Qed.

Lemma mapM_nth {A B : Type} (f : A -> result B) (l : list A) (bs : list B)
  (i : nat) (a : A) :
  mapM f l = Ok bs -> nth_error l i = Some a ->
  exists b, nth_error bs i = Some b /\ f a = Ok b.
Proof.
  revert bs i. induction l as [|a' l IH]; intros bs i H Hi.
  - destruct i; discriminate.
  - simpl in H. apply bind_ok in H as (b & Hb & H).
    apply bind_ok in H as (bs' & Hbs & H). inversion H; subst.
    destruct i as [|i]; simpl in *.
    + inversion Hi; subst. eauto.
    + eauto.
Qed.

Lemma mapM_total {A B : Type} (f : A -> result B) (l : list A) :
  (forall a, In a l -> exists b, f a = Ok b) -> exists bs, mapM f l = Ok bs.
Proof.
  induction l as [|a l IH]; simpl; intros H.
  - eauto.
  - destruct (H a) as [b Hb]; [now left|]. rewrite Hb. simpl.
    destruct IH as [bs Hbs]; [intros; apply H; now right|].
    rewrite Hbs. simpl. eauto.
Qed.

(** The registration loop appends one inequality [expr <= 0] per expression,
    numbered from [i], and changes nothing else on the controller. *)
Lemma set_nl_cons_loop_spec (prefix : string) (l : list SX) (i : nat)
  (c : controller.MPC) :
  mpc_cbf.set_nl_cons_loop prefix l i c =
    controller.mk
      (controller.model c) (controller.n_robust c) (controller.n_horizon c)
      (controller.t_step c) (controller.state_discretization c)
      (controller.store_full_solution c) (controller.mterm c)
      (controller.lterm c) (controller.rterm_u c)
      (controller.bounds_lower_u c) (controller.bounds_upper_u c)
      (controller.nl_cons_list c
       ++ map (fun kc =>
                 controller.mk_nl_cons (prefix ++ str (fst kc)) (snd kc) 0)
              (combine (seq i (List.length l)) l))
      (controller.tvp_fun c) (controller.x0 c) (controller.flag_setup c).
Proof.
  revert i c. induction l as [|e l IH]; intros i c; simpl.
  - rewrite app_nil_r. now destruct c.
  - rewrite IH. simpl. rewrite <- app_assoc. simpl.
    replace (i + 1)%nat with (S i) by lia. reflexivity.
Qed.

(** ** The assembled model and controller *)

(** [define_model] succeeds on the attributes of [__init__]; the model has
    the state ["x"], the input ["u"], one state update and the cost. *)
Lemma define_model_ok (cfg : config.t) :
  exists m B cost,
    mpc_cbf.define_model (mpc_cbf.init_attrs cfg) = Ok m
    /\ mpc_cbf.get_sys_matrix_B (symbols "_x" "x" 3) = Ok B
    /\ model.x m = [("x"%string, symbols "_x" "x" 3)]
    /\ model.u m = [("u"%string, symbols "_u" "u" 2)]
    /\ model.rhs_list m =
         [("x"%string,
           vadd (symbols "_x" "x" 3)
                (scale (mtimes B (symbols "_u" "u" 2)) (config.Ts cfg)))]
    /\ model.aux m = [("cost"%string, cost)]
    /\ model.tvp m =
         (if String.eqb (config.control_type cfg) "setpoint" then []
          else [("x_set_point"%string, symbols "_tvp" "x_set_point" 1);
                ("y_set_point"%string, symbols "_tvp" "y_set_point" 1)]).
Proof.
  unfold mpc_cbf.define_model, mpc_cbf.get_cost_expression, mpc_cbf.init_attrs.
  cbn [mpc_cbf.control_type mpc_cbf.goal mpc_cbf.Ts mpc_cbf.Q].
  destruct (String.eqb (config.control_type cfg) "setpoint") eqn:E;
    do 3 eexists; repeat split; reflexivity.
Qed.

(** The barrier of an obstacle is defined on every vector with at least two
    entries once the robot radius is set. *)
Lemma h_total (self : mpc_cbf.attrs) (x : vector) (o : obstacle) (rr : R) :
  mpc_cbf.r self = Some rr -> (2 <= List.length x)%nat ->
  exists x_0 x_1,
    nth_error x 0 = Some x_0 /\ nth_error x 1 = Some x_1
    /\ mpc_cbf.h self x o =
         Ok (SXsub (SXadd (SXpow (SXsub x_0 (SXconst (fst (fst o)))) 2)
                          (SXpow (SXsub x_1 (SXconst (snd (fst o)))) 2))
                   (SXconst ((rr + snd o) ^ 2))).
Proof.
  intros Hr Hlen. destruct o as [[x_obs y_obs] r_obs].
  destruct x as [|x_0 [|x_1 x]]; simpl in Hlen; try lia.
  exists x_0, x_1. unfold mpc_cbf.h. rewrite Hr. simpl. auto.
Qed.

Lemma x_k1_ok (cfg : config.t) (m : model.Model) :
  mpc_cbf.define_model (mpc_cbf.init_attrs cfg) = Ok m ->
  exists xk1,
    mpc_cbf.x_k1 (mpc_cbf.init_attrs cfg) m = Ok xk1
    /\ getitem (model.rhs_list m) "x" = Ok xk1
    /\ List.length xk1 = 3%nat.
Proof.
  intros Hm. destruct (define_model_ok cfg) as (m' & B & cost & Hm' & HB & Hx & Hu & Hrhs & _).
  rewrite Hm in Hm'. inversion Hm'; subst m'. clear Hm'.
  unfold mpc_cbf.x_k1. rewrite Hx, Hu, Hrhs. simpl getitem.
  cbn [bind]. rewrite HB. cbn [bind].
  eexists. split; [reflexivity|]. split; [reflexivity|].
  inversion HB. reflexivity.
Qed.

Lemma get_cbf_constraints_ok (cfg : config.t) (m : model.Model) :
  mpc_cbf.define_model (mpc_cbf.init_attrs cfg) = Ok m ->
  config.obstacles_on cfg = true ->
  exists cs, mpc_cbf.get_cbf_constraints (mpc_cbf.init_attrs cfg) m = Ok cs.
Proof.
  intros Hm Hon. destruct (x_k1_ok cfg m Hm) as (xk1 & Hxk1 & _ & Hlen).
  destruct (define_model_ok cfg) as (m' & B & cost & Hm' & HB & Hx & _).
  rewrite Hm in Hm'. inversion Hm'; subst m'. clear Hm'.
  unfold mpc_cbf.get_cbf_constraints. rewrite Hxk1. cbn [bind].
  assert (Hr : mpc_cbf.r (mpc_cbf.init_attrs cfg) = Some (config.r cfg))
    by (simpl; now rewrite Hon).
  assert (Ho : mpc_cbf.obs (mpc_cbf.init_attrs cfg) = Some (config.obs cfg))
    by (simpl; now rewrite Hon).
  rewrite Ho. cbn [getattr bind].
  apply mapM_total. intros o _.
  destruct (h_total _ xk1 o _ Hr) as (? & ? & _ & _ & ->); [lia|].
  rewrite Hx. cbn [getitem String.eqb Ascii.eqb Bool.eqb bind].
  destruct (h_total _ (symbols "_x" "x" 3) o _ Hr) as (? & ? & _ & _ & ->);
    [simpl; lia|].
  cbn [bind]. eauto.
Qed.

Lemma obs_avoid_ok (cfg : config.t) (m : model.Model) (o : obstacle) :
  mpc_cbf.define_model (mpc_cbf.init_attrs cfg) = Ok m ->
  config.obstacles_on cfg = true ->
  mpc_cbf.obs_avoid (mpc_cbf.init_attrs cfg) m o =
    Ok (SXadd (SXsub (SXneg (SXpow (SXsub (SXsym (Sym "_x" "x" 0))
                                          (SXconst (fst (fst o)))) 2))
                     (SXpow (SXsub (SXsym (Sym "_x" "x" 1))
                                   (SXconst (snd (fst o)))) 2))
              (SXconst ((config.r cfg + snd o) ^ 2))).
Proof.
  intros Hm Hon.
  destruct (define_model_ok cfg) as (m' & B & cost & Hm' & HB & Hx & _).
  rewrite Hm in Hm'. inversion Hm'; subst m'. clear Hm'.
  destruct o as [[x_obs y_obs] r_obs].
  unfold mpc_cbf.obs_avoid. rewrite Hx. simpl. now rewrite Hon.
Qed.

(** The inequalities [expr <= 0] that the registration loop creates from a
    list of expressions. *)
Lemma define_mpc_ok (cfg : config.t) (m : model.Model) :
  mpc_cbf.define_model (mpc_cbf.init_attrs cfg) = Ok m ->
  exists c cost prefix exprs,
    mpc_cbf.define_mpc cfg (mpc_cbf.init_attrs cfg) m = Ok c
    /\ controller.model c = m
    /\ controller.n_robust c = 0%nat
    /\ controller.n_horizon c = config.T_horizon cfg
    /\ controller.t_step c = config.Ts cfg
    /\ getitem (model.aux m) "cost" = Ok cost
    /\ controller.mterm c = Some cost
    /\ controller.lterm c = Some cost
    /\ controller.rterm_u c = Some (config.R cfg)
    /\ controller.bounds_lower_u c =
         Some [- config.v_limit cfg; - config.omega_limit cfg]
    /\ controller.bounds_upper_u c =
         Some [config.v_limit cfg; config.omega_limit cfg]
    /\ controller.tvp_fun c =
         (if String.eqb (config.control_type cfg) "traj_tracking"
          then Some (mpc_cbf.tvp_fun_mpc cfg) else None)
    /\ controller.nl_cons_list c =
         map (fun kc =>
                controller.mk_nl_cons (prefix ++ str (fst kc)) (snd kc) 0)
             (combine (seq 0 (List.length exprs)) exprs)
    /\ (config.obstacles_on cfg = false -> exprs = [])
    /\ (config.obstacles_on cfg = true ->
        String.eqb (config.controller cfg) "MPC-DC" = true ->
        prefix = "obstacle_constraint"%string
        /\ mapM (mpc_cbf.obs_avoid (mpc_cbf.init_attrs cfg) m)
                (config.obs cfg) = Ok exprs)
    /\ (config.obstacles_on cfg = true ->
        String.eqb (config.controller cfg) "MPC-DC" = false ->
        prefix = "cbf_constraint"%string
        /\ mpc_cbf.get_cbf_constraints (mpc_cbf.init_attrs cfg) m = Ok exprs).
Proof.
  intros Hm.
  destruct (define_model_ok cfg) as (m' & B & cost & Hm' & HB & Hx & Hu & Hrhs & Haux & Htvp).
  rewrite Hm in Hm'. inversion Hm'; subst m'. clear Hm'.
  unfold mpc_cbf.define_mpc. rewrite Haux.
  cbn [getitem String.eqb Ascii.eqb Bool.eqb bind].
  destruct (config.obstacles_on cfg) eqn:Hon.
  - cbn [mpc_cbf.obstacles_on mpc_cbf.init_attrs]. rewrite Hon.
    destruct (String.eqb (config.controller cfg) "MPC-DC") eqn:Hdc.
    + unfold mpc_cbf.add_obstacle_constraints.
      cbn [mpc_cbf.obs mpc_cbf.init_attrs]. rewrite Hon. cbn [getattr bind].
      destruct (mapM_total (mpc_cbf.obs_avoid (mpc_cbf.init_attrs cfg) m)
                           (config.obs cfg)) as [ds Hds].
      { intros o _. rewrite (obs_avoid_ok cfg m o Hm Hon). eauto. }
      rewrite Hds. cbn [bind].
      rewrite set_nl_cons_loop_spec.
      eexists _, cost, "obstacle_constraint"%string, ds.
      split; [reflexivity|].
      destruct (String.eqb (mpc_cbf.control_type (mpc_cbf.init_attrs cfg))
                           "traj_tracking") eqn:Ht;
        cbn [mpc_cbf.control_type mpc_cbf.init_attrs] in Ht; rewrite Ht;
        cbn;
        repeat split; try reflexivity; try discriminate; auto.
    + destruct (get_cbf_constraints_ok cfg m Hm Hon) as [cs Hcs].
      unfold mpc_cbf.add_cbf_constraints. rewrite Hcs. cbn [bind].
      rewrite set_nl_cons_loop_spec.
      eexists _, cost, "cbf_constraint"%string, cs.
      split; [reflexivity|].
      destruct (String.eqb (mpc_cbf.control_type (mpc_cbf.init_attrs cfg))
                           "traj_tracking") eqn:Ht;
        cbn [mpc_cbf.control_type mpc_cbf.init_attrs] in Ht; rewrite Ht;
        cbn;
        repeat split; try reflexivity; try discriminate; auto.
  - cbn [mpc_cbf.obstacles_on mpc_cbf.init_attrs]. rewrite Hon. cbn [bind].
    eexists _, cost, ""%string, [].
    split; [reflexivity|].
    destruct (String.eqb (mpc_cbf.control_type (mpc_cbf.init_attrs cfg))
                         "traj_tracking") eqn:Ht;
      cbn [mpc_cbf.control_type mpc_cbf.init_attrs] in Ht; rewrite Ht;
      cbn; repeat split; try reflexivity; try discriminate.
Qed.

(** No line of the class raises in [__init__]; what it hands to do_mpc. *)
Lemma init_ok (cfg : config.t) :
  exists obj c,
    mpc_cbf.__init__ cfg = Ok obj
    /\ mpc_cbf.self_attrs obj = mpc_cbf.init_attrs cfg
    /\ mpc_cbf.define_model (mpc_cbf.init_attrs cfg) = Ok (mpc_cbf.model obj)
    /\ mpc_cbf.define_mpc cfg (mpc_cbf.init_attrs cfg) (mpc_cbf.model obj)
       = Ok c
    /\ mpc_cbf.mpc obj = controller.set_x0 c (config.x0 cfg)
    /\ mpc_cbf.simulator obj =
         simulator.set_x0
           (mpc_cbf.define_simulator (mpc_cbf.init_attrs cfg)
                                     (mpc_cbf.model obj))
           (config.x0 cfg).
Proof.
  destruct (define_model_ok cfg) as (m & _ & _ & Hm & _).
  destruct (define_mpc_ok cfg m Hm) as (c & _ & _ & _ & Hc & _).
  exists (mpc_cbf.set_init_state
            (mpc_cbf.mk_MPC (mpc_cbf.init_attrs cfg) m c
               (mpc_cbf.define_simulator (mpc_cbf.init_attrs cfg) m)
               (estimator.new m))), c.
  unfold mpc_cbf.__init__. rewrite Hm. cbn [bind]. rewrite Hc. cbn [bind].
  repeat split; auto.
Qed.

(** ** The kinematic model *)

(** C4.  The state update that [define_model] sets for ["x"] evaluates, for
    every assignment of the state [(x, y, theta)] and of the input
    [(v, omega)], to [x + B(theta) u Ts], where [B(theta)] has the rows
    [[cos theta, -a sin theta]], [[sin theta, a cos theta]] and [[0, 1]],
    and [a = 1e-9 > 0].  The update is a function of the assignment
    only. *)
Theorem kinematic_model_transition (cfg : config.t) (e : env) :
  let x := e (Sym "_x" "x" 0) in
  let y := e (Sym "_x" "x" 1) in
  let theta := e (Sym "_x" "x" 2) in
  let v := e (Sym "_u" "u" 0) in
  let omega := e (Sym "_u" "u" 1) in
  exists m B x_next,
    mpc_cbf.define_model (mpc_cbf.init_attrs cfg) = Ok m
    /\ mpc_cbf.get_sys_matrix_B (symbols "_x" "x" 3) = Ok B
    /\ map (eval_vector e) B =
         [[cos theta; - mpc_cbf.a * sin theta];
          [sin theta; mpc_cbf.a * cos theta];
          [0; 1]]
    /\ getitem (model.rhs_list m) "x" = Ok x_next
    /\ eval_vector e x_next =
         [x + (cos theta * v + - mpc_cbf.a * sin theta * omega) * config.Ts cfg;
          y + (sin theta * v + mpc_cbf.a * cos theta * omega) * config.Ts cfg;
          theta + (0 * v + 1 * omega) * config.Ts cfg]
    /\ mpc_cbf.a = 1e-9 /\ 0 < mpc_cbf.a.
Proof.
  intros x y theta v omega.
  destruct (define_model_ok cfg) as (m & B & cost & Hm & HB & Hx & Hu & Hrhs & _).
  exists m, B. eexists. rewrite Hrhs.
  split; [exact Hm|]. split; [exact HB|].
  inversion HB; subst B. clear HB.
  split; [reflexivity|]. split; [reflexivity|]. split; [reflexivity|].
  split; [reflexivity|]. unfold mpc_cbf.a. lra.
Qed.

(** C5.  The one-step-ahead state [x_k1] of [get_cbf_constraints] is the
    very expression that [define_model] sets as the state update of the
    model, so the two evaluate alike under every assignment. *)
Theorem cbf_successor_is_model_rhs (cfg : config.t) :
  exists m rhs x_k1,
    mpc_cbf.define_model (mpc_cbf.init_attrs cfg) = Ok m
    /\ getitem (model.rhs_list m) "x" = Ok rhs
    /\ mpc_cbf.x_k1 (mpc_cbf.init_attrs cfg) m = Ok x_k1
    /\ x_k1 = rhs
    /\ forall e : env, eval_vector e x_k1 = eval_vector e rhs.
Proof.
  destruct (define_model_ok cfg) as (m & _ & _ & Hm & _).
  destruct (x_k1_ok cfg m Hm) as (xk1 & H1 & H2 & _).
  exists m, xk1, xk1. repeat split; auto.
Qed.

(** The older variant writes the matrix in place, in [define_model] and
    again in [define_mpc], with the same entries: its model is the model of
    [mpc_cbf.py] and its [x_k1] is the state update of that model. *)
Lemma old_define_model_same (self : mpc_cbf.attrs) :
  mpc_cbf_old.define_model self = mpc_cbf.define_model self.
Proof. reflexivity. Qed.

Lemma old_successor_is_model_rhs (cfg : config.t) :
  exists m rhs,
    mpc_cbf_old.define_model (mpc_cbf.init_attrs cfg) = Ok m
    /\ getitem (model.rhs_list m) "x" = Ok rhs
    /\ mpc_cbf_old.x_k1 (mpc_cbf.init_attrs cfg) m = Ok rhs.
Proof.
  rewrite old_define_model_same.
  destruct (define_model_ok cfg) as (m & B & cost & Hm & HB & Hx & Hu & Hrhs & _).
  exists m. eexists. split; [exact Hm|]. rewrite Hrhs.
  split; [reflexivity|].
  unfold mpc_cbf_old.x_k1, model.getentry. rewrite Hx, Hu.
  inversion HB; subst B. reflexivity.
Qed.

(** An expression that mentions no symbol of a kind has the same value
    under two assignments that differ on that kind only. *)
Lemma eval_ext (vt : string) (s : SX) (e1 e2 : env) :
  mentions vt s = false ->
  (forall v, var_type v <> vt -> e1 v = e2 v) ->
  eval e1 s = eval e2 s.
Proof.
  intros Hm He. induction s; simpl in Hm |- *.
  all: try (apply orb_false_iff in Hm as [Hm1 Hm2]).
  all: try (rewrite IHs1, IHs2 by assumption; reflexivity).
  all: try (rewrite IHs by assumption; reflexivity).
  - apply He. now apply String.eqb_neq.
  - reflexivity.
Qed.

Lemma eval_vector_ext (vt : string) (l : vector) (e1 e2 : env) :
  forallb (fun s => negb (mentions vt s)) l = true ->
  (forall v, var_type v <> vt -> e1 v = e2 v) ->
  eval_vector e1 l = eval_vector e2 l.
Proof.
  intros Hl He. induction l as [|s l IH]; simpl in *; [reflexivity|].
  apply andb_true_iff in Hl as [Hs Hl]. apply negb_true_iff in Hs.
  f_equal; [now apply (eval_ext vt) | auto].
Qed.

(** C10.  The state update of the simulator's model mentions no
    time-varying parameter; in trajectory-tracking mode the simulator's
    parameter function returns its template at every time; and under two
    assignments that agree on the state and on the input the update has
    the same value, whatever the reference values are. *)
Theorem simulator_independent_of_reference (cfg : config.t) :
  exists obj rhs,
    mpc_cbf.__init__ cfg = Ok obj
    /\ getitem (model.rhs_list (simulator.model (mpc_cbf.simulator obj))) "x"
       = Ok rhs
    /\ forallb (fun s => negb (mentions "_tvp" s)) rhs = true
    /\ (config.control_type cfg = "traj_tracking"%string ->
        exists f,
          simulator.tvp_fun (mpc_cbf.simulator obj) = Some f
          /\ forall t_now,
               f t_now = simulator.get_tvp_template (mpc_cbf.simulator obj))
    /\ (forall e1 e2 : env,
          (forall v, var_type v <> "_tvp"%string -> e1 v = e2 v) ->
          eval_vector e1 rhs = eval_vector e2 rhs).
Proof.
  destruct (init_ok cfg) as (obj & c & Hobj & Hattrs & Hm & Hc & Hmpc & Hsim).
  destruct (define_model_ok cfg) as (m & B & cost & Hm' & HB & Hx & Hu & Hrhs & _).
  rewrite Hm in Hm'. inversion Hm' as [Hmm]. clear Hm'.
  exists obj. eexists. split; [exact Hobj|].
  rewrite Hsim.
  assert (Hmod : simulator.model
            (simulator.set_x0
               (mpc_cbf.define_simulator (mpc_cbf.init_attrs cfg)
                  (mpc_cbf.model obj)) (config.x0 cfg)) = mpc_cbf.model obj).
  { unfold mpc_cbf.define_simulator.
    destruct (String.eqb _ _); reflexivity. }
  rewrite Hmod, Hmm, Hrhs. inversion HB; subst B.
  split; [reflexivity|].
  split; [reflexivity|]. split.
  - intros Ht. unfold mpc_cbf.define_simulator.
    cbn [mpc_cbf.control_type mpc_cbf.init_attrs]. rewrite Ht.
    eexists. split; reflexivity.
  - intros e1 e2 He. now apply (eval_vector_ext "_tvp").
Qed.

Lemma simulator_independent_of_reference_witness :
  let cfg := example_config "traj_tracking" "MPC-CBF" "circular" (1 / 2) in
  let e1 : env := fun s => if String.eqb (var_type s) "_tvp" then 1 else 0 in
  let e2 : env := fun s => 0 in
  exists obj rhs f,
    mpc_cbf.__init__ cfg = Ok obj
    /\ getitem (model.rhs_list (simulator.model (mpc_cbf.simulator obj))) "x"
       = Ok rhs
    /\ simulator.tvp_fun (mpc_cbf.simulator obj) = Some f
    /\ (forall t_now,
          f t_now = simulator.get_tvp_template (mpc_cbf.simulator obj))
    /\ eval_vector e1 rhs = eval_vector e2 rhs.
Proof.
  intros cfg e1 e2.
  destruct (simulator_independent_of_reference cfg)
    as (obj & rhs & Hobj & Hrhs & _ & Hf & Hext).
  destruct (Hf eq_refl) as (f & Hf1 & Hf2).
  exists obj, rhs, f. repeat split; auto.
  apply Hext. intros v Hv. unfold e1, e2.
  apply String.eqb_neq in Hv. now rewrite Hv.
Defined.

(** ** The barrier constraints *)

Lemma nth_error_numbered {A B : Type} (f : nat * A -> B) (l : list A)
  (k i : nat) :
  nth_error (map f (combine (seq k (List.length l)) l)) i =
    option_map (fun a => f ((k + i)%nat, a)) (nth_error l i).
Proof.
  revert k i. induction l as [|a l IH]; intros k i; simpl.
  - now destruct i.
  - destruct i as [|i]; simpl.
    + now rewrite Nat.add_0_r.
    + rewrite IH. now replace (S k + i)%nat with (k + S i)%nat by lia.
Qed.

Lemma length_numbered {A B : Type} (f : nat * A -> B) (l : list A) (k : nat) :
  List.length (map f (combine (seq k (List.length l)) l)) = List.length l.
Proof.
  rewrite length_map, length_combine, length_seq. apply Nat.min_id.
Qed.

(** The value of the barrier at the entries of a vector is its value as an
    expression of the state symbols, under the assignment that gives the
    state the values of these entries. *)
Lemma h_at_vector (self : mpc_cbf.attrs) (o : obstacle) (x : vector)
  (h_x1 h_x : SX) (e : env) :
  (2 <= List.length x)%nat ->
  mpc_cbf.h self x o = Ok h_x1 ->
  mpc_cbf.h self (symbols "_x" "x" 3) o = Ok h_x ->
  eval e h_x1 = eval (mpc_cbf.with_state e (eval_vector e x)) h_x.
Proof.
  intros Hlen H1 H2. destruct o as [[x_obs y_obs] r_obs].
  destruct x as [|x_0 [|x_1 x]]; simpl in Hlen; try lia.
  unfold mpc_cbf.h in *. simpl in H1, H2.
  destruct (mpc_cbf.r self) as [rr|]; simpl in H1, H2; [|discriminate].
  inversion H1; inversion H2; subst. reflexivity.
Qed.

(** The barrier, evaluated. *)
Lemma h_eval (self : mpc_cbf.attrs) (o : obstacle) (h_x : SX) (e : env) :
  mpc_cbf.h self (symbols "_x" "x" 3) o = Ok h_x ->
  exists rr,
    mpc_cbf.r self = Some rr
    /\ eval e h_x =
         (e (Sym "_x" "x" 0) - fst (fst o)) ^ 2
         + (e (Sym "_x" "x" 1) - snd (fst o)) ^ 2
         - (rr + snd o) ^ 2.
Proof.
  intros H. destruct o as [[x_obs y_obs] r_obs].
  unfold mpc_cbf.h in H. simpl in H.
  destruct (mpc_cbf.r self) as [rr|]; simpl in H; [|discriminate].
  inversion H; subst. exists rr. split; reflexivity.
Qed.

(** In the barrier formulation the controller of [__init__] carries, at the
    position of every obstacle, the inequality
    [-h(x_k1) + (1 - gamma) h(x) <= 0]. *)
Lemma cbf_constraint_shape (cfg : config.t) (obj : mpc_cbf.MPC) :
  mpc_cbf.__init__ cfg = Ok obj ->
  config.obstacles_on cfg = true ->
  config.controller cfg <> "MPC-DC"%string ->
  exists x_k1,
    mpc_cbf.x_k1 (mpc_cbf.init_attrs cfg) (mpc_cbf.model obj) = Ok x_k1
    /\ getitem (model.rhs_list (mpc_cbf.model obj)) "x" = Ok x_k1
    /\ List.length x_k1 = 3%nat
    /\ List.length (controller.nl_cons_list (mpc_cbf.mpc obj)) =
         List.length (config.obs cfg)
    /\ forall i o,
         nth_error (config.obs cfg) i = Some o ->
         exists h_k1 h_k,
           mpc_cbf.h (mpc_cbf.init_attrs cfg) x_k1 o = Ok h_k1
           /\ mpc_cbf.h (mpc_cbf.init_attrs cfg) (symbols "_x" "x" 3) o
              = Ok h_k
           /\ nth_error (controller.nl_cons_list (mpc_cbf.mpc obj)) i =
                Some (controller.mk_nl_cons
                        ("cbf_constraint" ++ str i)
                        (SXadd (SXneg h_k1)
                               (SXmul (SXconst (1 - config.gamma cfg)) h_k))
                        0).
Proof.
  intros Hobj Hon Hdc. apply String.eqb_neq in Hdc.
  destruct (init_ok cfg) as (obj' & c & Hobj' & Hattrs & Hm & Hc & Hmpc & Hsim).
  rewrite Hobj in Hobj'. inversion Hobj'; subst obj'. clear Hobj'.
  destruct (define_mpc_ok cfg _ Hm)
    as (c' & cost & prefix & exprs & Hc' & _ & _ & _ & _ & _ & _ & _ & _ & _
        & _ & _ & Hcons & _ & _ & Hcbf).
  rewrite Hc in Hc'. inversion Hc'; subst c'. clear Hc'.
  destruct (Hcbf Hon Hdc) as [-> Hcs].
  destruct (x_k1_ok cfg _ Hm) as (xk1 & Hxk1 & Hrhs & Hlen).
  destruct (define_model_ok cfg) as (m' & B & cost' & Hm' & HB & Hx & _).
  rewrite Hm in Hm'. inversion Hm' as [Hmm]. clear Hm'.
  assert (Hr : mpc_cbf.r (mpc_cbf.init_attrs cfg) = Some (config.r cfg))
    by (simpl; now rewrite Hon).
  unfold mpc_cbf.get_cbf_constraints in Hcs. rewrite Hxk1 in Hcs.
  cbn [bind mpc_cbf.obs mpc_cbf.init_attrs] in Hcs. rewrite Hon in Hcs.
  cbn [getattr bind] in Hcs.
  exists xk1. split; [exact Hxk1|]. split; [exact Hrhs|]. split; [exact Hlen|].
  rewrite Hmpc. cbn [controller.nl_cons_list controller.set_x0].
  rewrite Hcons. split.
  - rewrite length_numbered. now apply mapM_length in Hcs.
  - intros i o Hi.
    destruct (mapM_nth _ _ _ i o Hcs Hi) as (b & Hb & Hfo).
    destruct (h_total _ xk1 o _ Hr) as (? & ? & _ & _ & Hh1); [lia|].
    rewrite Hh1 in Hfo. cbn [bind] in Hfo. rewrite Hmm, Hx in Hfo.
    cbn [getitem String.eqb Ascii.eqb Bool.eqb bind] in Hfo.
    destruct (h_total _ (symbols "_x" "x" 3) o _ Hr) as (? & ? & _ & _ & Hh);
      [simpl; lia|].
    rewrite Hh in Hfo. cbn [bind] in Hfo. inversion Hfo; subst b.
    do 2 eexists. split; [exact Hh1|]. split; [exact Hh|].
    rewrite nth_error_numbered, Hb. reflexivity.
Qed.

(** The generated inequality, evaluated: minus the barrier at the state one
    step ahead plus [(1 - gamma)] times the barrier at the current state,
    bounded above by [0]. *)
Lemma cbf_constraint_eval (cfg : config.t) (obj : mpc_cbf.MPC) (i : nat)
  (o : obstacle) (cbc : controller.nl_cons) (h_x : SX) (rhs : vector) :
  mpc_cbf.__init__ cfg = Ok obj ->
  config.obstacles_on cfg = true ->
  config.controller cfg <> "MPC-DC"%string ->
  nth_error (config.obs cfg) i = Some o ->
  nth_error (controller.nl_cons_list (mpc_cbf.mpc obj)) i = Some cbc ->
  mpc_cbf.h (mpc_cbf.init_attrs cfg) (symbols "_x" "x" 3) o = Ok h_x ->
  getitem (model.rhs_list (mpc_cbf.model obj)) "x" = Ok rhs ->
  controller.ub cbc = 0
  /\ forall e : env,
       eval e (controller.expr cbc) =
         - eval (mpc_cbf.with_state e (eval_vector e rhs)) h_x
         + (1 - config.gamma cfg) * eval e h_x.
Proof.
  intros Hobj Hon Hdc Ho Hcbc Hh Hrhs.
  destruct (cbf_constraint_shape cfg obj Hobj Hon Hdc)
    as (xk1 & _ & Hrhs' & Hlen & _ & Hall).
  rewrite Hrhs in Hrhs'. inversion Hrhs'; subst xk1. clear Hrhs'.
  destruct (Hall i o Ho) as (h_k1 & h_k & Hk1 & Hk & Hnth).
  rewrite Hh in Hk. inversion Hk; subst h_k. clear Hk.
  rewrite Hcbc in Hnth. injection Hnth as ->.
  split; [reflexivity|]. intros e. simpl.
  rewrite (h_at_vector (mpc_cbf.init_attrs cfg) o rhs h_k1 h_x e); auto. lia.
Qed.

(** The barrier depends on the first two state symbols only. *)
Lemma h_eval_ext (self : mpc_cbf.attrs) (o : obstacle) (h_x : SX)
  (e1 e2 : env) :
  mpc_cbf.h self (symbols "_x" "x" 3) o = Ok h_x ->
  e1 (Sym "_x" "x" 0) = e2 (Sym "_x" "x" 0) ->
  e1 (Sym "_x" "x" 1) = e2 (Sym "_x" "x" 1) ->
  eval e1 h_x = eval e2 h_x.
Proof.
  intros Hh H0 H1.
  destruct (h_eval self o h_x e1 Hh) as (rr & Hr & ->).
  destruct (h_eval self o h_x e2 Hh) as (rr' & Hr' & ->).
  rewrite Hr in Hr'. inversion Hr'; subst rr'. now rewrite H0, H1.
Qed.

(** C1, as the code has it.  In the barrier formulation, for every obstacle
    and every assignment of the state and the input (every step of the
    horizon), if [0 < gamma <= 1], the barrier is non-negative at the
    current state and the generated inequality holds, then the barrier at
    the successor state of the kinematic model is at least [(1 - gamma)]
    times the barrier at the current state, which is non-negative; so along
    every sequence of steps that satisfy the inequality the barrier stays
    non-negative when it is non-negative at the start. *)
Theorem cbf_forward_invariance (cfg : config.t) (obj : mpc_cbf.MPC) (i : nat)
  (o : obstacle) (cbc : controller.nl_cons) (h_x : SX) (rhs : vector) :
  mpc_cbf.__init__ cfg = Ok obj ->
  config.obstacles_on cfg = true ->
  config.controller cfg <> "MPC-DC"%string ->
  nth_error (config.obs cfg) i = Some o ->
  nth_error (controller.nl_cons_list (mpc_cbf.mpc obj)) i = Some cbc ->
  mpc_cbf.h (mpc_cbf.init_attrs cfg) (symbols "_x" "x" 3) o = Ok h_x ->
  getitem (model.rhs_list (mpc_cbf.model obj)) "x" = Ok rhs ->
  0 < config.gamma cfg <= 1 ->
  (forall e : env,
     0 <= eval e h_x ->
     eval e (controller.expr cbc) <= controller.ub cbc ->
     let e' := mpc_cbf.with_state e (eval_vector e rhs) in
     0 <= (1 - config.gamma cfg) * eval e h_x
     /\ (1 - config.gamma cfg) * eval e h_x <= eval e' h_x)
  /\ (forall (e0 : env) (es : list env),
        cbf_trajectory rhs cbc (e0 :: es) ->
        0 <= eval e0 h_x ->
        Forall (fun e => 0 <= eval e h_x) (e0 :: es)).
Proof.
  intros Hobj Hon Hdc Ho Hcbc Hh Hrhs Hg.
  destruct (cbf_constraint_eval cfg obj i o cbc h_x rhs) as [Hub Hev]; auto.
  assert (Hstep : forall e : env,
            0 <= eval e h_x ->
            eval e (controller.expr cbc) <= controller.ub cbc ->
            0 <= (1 - config.gamma cfg) * eval e h_x
            /\ (1 - config.gamma cfg) * eval e h_x
               <= eval (mpc_cbf.with_state e (eval_vector e rhs)) h_x).
  { intros e Hsafe Hc. rewrite Hub, Hev in Hc. split; [nra | lra]. }
  split; [exact Hstep|].
  intros e0 es Htraj. remember (e0 :: es) as l eqn:El.
  revert e0 es El. induction Htraj as [e|e e' es' Hc Hnext Htraj IH];
    intros e0 es El Hsafe; inversion El; subst.
  - constructor; [assumption | constructor].
  - constructor; [assumption|].
    apply (IH e' es' eq_refl).
    destruct (Hstep e0 Hsafe Hc) as [H1 H2].
    rewrite (h_eval_ext _ o h_x e'
               (mpc_cbf.with_state e0 (eval_vector e0 rhs)) Hh).
    + lra.
    + apply Hnext.
    + apply Hnext.
Qed.

Lemma cbf_forward_invariance_witness :
  let cfg := example_config "setpoint" "MPC-CBF" "circular" (1 / 2) in
  let e := mpc_cbf.env_of [2; 0; 0] [1; 0] in
  exists obj cbc h_x rhs,
    mpc_cbf.__init__ cfg = Ok obj
    /\ nth_error (controller.nl_cons_list (mpc_cbf.mpc obj)) 0 = Some cbc
    /\ mpc_cbf.h (mpc_cbf.init_attrs cfg) (symbols "_x" "x" 3) (0, 0, 1)
       = Ok h_x
    /\ getitem (model.rhs_list (mpc_cbf.model obj)) "x" = Ok rhs
    /\ 0 <= (1 - config.gamma cfg) * eval e h_x
    /\ (1 - config.gamma cfg) * eval e h_x
       <= eval (mpc_cbf.with_state e (eval_vector e rhs)) h_x.
Proof.
  intros cfg e.
  eexists. eexists. eexists. eexists.
  split; [reflexivity|]. split; [reflexivity|]. split; [reflexivity|].
  split; [reflexivity|].
  refine (proj1 (cbf_forward_invariance cfg _ 0%nat (0, 0, 1) _ _ _
                   eq_refl eq_refl _ eq_refl eq_refl eq_refl eq_refl _)
                e _ _).
  - intros H. discriminate H.
  - simpl. lra.
  - unfold e, mpc_cbf.env_of. simpl. lra.
  - unfold e, mpc_cbf.env_of. simpl. rewrite cos_0, sin_0. lra.
Defined.

(** C1, as it is worded, fails: with [gamma = 1] the step from [(2, 0, 0)]
    with input [(-1, 0)] ends on the boundary, at [(1, 0, 0)]; the barrier
    falls from [3] to [0], the generated inequality holds, and [0] is not
    at least [gamma * 3]. *)
Lemma cbf_decay_by_gamma_counterexample :
  let cfg := example_config "setpoint" "MPC-CBF" "circular" 1 in
  let e := mpc_cbf.env_of [2; 0; 0] [-1; 0] in
  exists obj cbc h_x rhs,
    mpc_cbf.__init__ cfg = Ok obj
    /\ nth_error (config.obs cfg) 0 = Some (0, 0, 1)
    /\ nth_error (controller.nl_cons_list (mpc_cbf.mpc obj)) 0 = Some cbc
    /\ mpc_cbf.h (mpc_cbf.init_attrs cfg) (symbols "_x" "x" 3) (0, 0, 1)
       = Ok h_x
    /\ getitem (model.rhs_list (mpc_cbf.model obj)) "x" = Ok rhs
    /\ eval_vector e rhs = [1; 0; 0]
    /\ 0 < config.gamma cfg <= 1
    /\ eval e h_x = 3
    /\ eval e (controller.expr cbc) <= controller.ub cbc
    /\ eval (mpc_cbf.with_state e (eval_vector e rhs)) h_x = 0
    /\ ~ (config.gamma cfg * eval e h_x
          <= eval (mpc_cbf.with_state e (eval_vector e rhs)) h_x).
Proof.
  intros cfg e.
  eexists. eexists. eexists. eexists.
  split; [reflexivity|]. split; [reflexivity|]. split; [reflexivity|].
  split; [reflexivity|]. split; [reflexivity|].
  unfold e, mpc_cbf.env_of, mpc_cbf.with_state. simpl. rewrite cos_0, sin_0.
  repeat split; try lra.
  repeat f_equal; lra.
Qed.

(** C2.  In the barrier formulation (obstacles on, controller other than
    "MPC-DC") the controller of [__init__] carries exactly one inequality
    per configured obstacle: the one of obstacle number [i] is named
    ["cbf_constraint" ++ str i], has the upper bound [0] and the expression
    [-h(x_k1) + (1 - gamma) h(x)], where [x] are the state symbols of the
    model and [x_k1], the state one step ahead, is the state update of the
    model. *)
Theorem cbf_constraint_per_obstacle (cfg : config.t) :
  config.obstacles_on cfg = true ->
  config.controller cfg <> "MPC-DC"%string ->
  exists obj x_k1,
    mpc_cbf.__init__ cfg = Ok obj
    /\ mpc_cbf.x_k1 (mpc_cbf.init_attrs cfg) (mpc_cbf.model obj) = Ok x_k1
    /\ getitem (model.rhs_list (mpc_cbf.model obj)) "x" = Ok x_k1
    /\ getitem (model.x (mpc_cbf.model obj)) "x" = Ok (symbols "_x" "x" 3)
    /\ List.length (controller.nl_cons_list (mpc_cbf.mpc obj)) =
         List.length (config.obs cfg)
    /\ forall i o,
         nth_error (config.obs cfg) i = Some o ->
         exists h_k1 h_k,
           mpc_cbf.h (mpc_cbf.init_attrs cfg) x_k1 o = Ok h_k1
           /\ mpc_cbf.h (mpc_cbf.init_attrs cfg) (symbols "_x" "x" 3) o
              = Ok h_k
           /\ nth_error (controller.nl_cons_list (mpc_cbf.mpc obj)) i =
                Some (controller.mk_nl_cons
                        ("cbf_constraint" ++ str i)
                        (SXadd (SXneg h_k1)
                               (SXmul (SXconst (1 - config.gamma cfg)) h_k))
                        0).
Proof.
  intros Hon Hdc.
  destruct (init_ok cfg) as (obj & c & Hobj & _ & Hm & _).
  destruct (cbf_constraint_shape cfg obj Hobj Hon Hdc)
    as (xk1 & H1 & H2 & _ & H3 & H4).
  destruct (define_model_ok cfg) as (m' & _ & _ & Hm' & _ & Hx & _).
  rewrite Hm in Hm'. injection Hm' as <-.
  exists obj, xk1. rewrite Hx. repeat split; auto.
Qed.

Lemma cbf_constraint_per_obstacle_witness :
  let cfg := example_config "setpoint" "MPC-CBF" "circular" (1 / 2) in
  exists obj,
    mpc_cbf.__init__ cfg = Ok obj
    /\ List.length (controller.nl_cons_list (mpc_cbf.mpc obj)) = 1%nat
    /\ exists h_k1 h_k,
         nth_error (controller.nl_cons_list (mpc_cbf.mpc obj)) 0 =
           Some (controller.mk_nl_cons
                   "cbf_constraint0"
                   (SXadd (SXneg h_k1) (SXmul (SXconst (1 - 1 / 2)) h_k))
                   0).
Proof.
  intros cfg.
  destruct (cbf_constraint_per_obstacle cfg eq_refl)
    as (obj & xk1 & Hobj & _ & _ & _ & Hlen & Hall).
  - intros H. discriminate H.
  - exists obj. split; [exact Hobj|]. split; [exact Hlen|].
    destruct (Hall 0%nat (0, 0, 1) eq_refl) as (h_k1 & h_k & _ & _ & Hnth).
    exists h_k1, h_k. exact Hnth.
Defined.


(** X18.  Without obstacles, or with an empty list of obstacles, the older
    variant fails while it builds the barrier. *)
Lemma old_init_fails_without_obstacles (cfg : config.t) :
  (config.obstacles_on cfg = false ->
   mpc_cbf_old.__init__ cfg = Raise (AttributeError "obs"))
  /\ (config.obstacles_on cfg = true -> config.obs cfg = [] ->
      mpc_cbf_old.__init__ cfg = Raise IndexError).
Proof.
  destruct (old_successor_is_model_rhs cfg) as (m & rhs & Hm & Hrhs & Hxk1).
  assert (Hm' := Hm). rewrite old_define_model_same in Hm'.
  destruct (define_model_ok cfg) as (m' & B & cost & Hm'' & HB & Hx & Hu & Hr & Haux & _).
  rewrite Hm' in Hm''. injection Hm'' as <-.
  unfold mpc_cbf_old.__init__. rewrite Hm. cbn [bind].
  unfold mpc_cbf_old.define_mpc. rewrite Haux, Hxk1.
  unfold mpc_cbf_old.h. simpl.
  split.
  - intros Hon. rewrite Hon. reflexivity.
  - intros Hon Hobs. rewrite Hon, Hobs. reflexivity.
Qed.

(** C3.  With obstacles switched off, or with an empty list of obstacles,
    [__init__] succeeds and the controller carries no inequality: it holds
    the cost as stage and terminal cost, the input penalty, the bounds of
    the input and the model with its state update. *)
Theorem no_obstacle_pass_through (cfg : config.t) :
  config.obstacles_on cfg = false \/ config.obs cfg = [] ->
  exists obj cost rhs,
    mpc_cbf.__init__ cfg = Ok obj
    /\ controller.nl_cons_list (mpc_cbf.mpc obj) = []
    /\ getitem (model.aux (mpc_cbf.model obj)) "cost" = Ok cost
    /\ controller.mterm (mpc_cbf.mpc obj) = Some cost
    /\ controller.lterm (mpc_cbf.mpc obj) = Some cost
    /\ controller.rterm_u (mpc_cbf.mpc obj) = Some (config.R cfg)
    /\ controller.bounds_lower_u (mpc_cbf.mpc obj) =
         Some [- config.v_limit cfg; - config.omega_limit cfg]
    /\ controller.bounds_upper_u (mpc_cbf.mpc obj) =
         Some [config.v_limit cfg; config.omega_limit cfg]
    /\ controller.model (mpc_cbf.mpc obj) = mpc_cbf.model obj
    /\ getitem (model.rhs_list (mpc_cbf.model obj)) "x" = Ok rhs.
Proof.
  intros Hno.
  destruct (init_ok cfg) as (obj & c & Hobj & _ & Hm & Hc & Hmpc & _).
  destruct (define_mpc_ok cfg _ Hm)
    as (c' & cost & prefix & exprs & Hc' & H1 & _ & _ & _ & H2 & H3 & H4 & H5
        & H6 & H7 & _ & Hcons & Hoff & Hdc & Hcbf).
  rewrite Hc in Hc'. injection Hc' as <-.
  destruct (x_k1_ok cfg _ Hm) as (rhs & _ & Hrhs & _).
  assert (He : exprs = []).
  { destruct (config.obstacles_on cfg) eqn:Hon; [|now apply Hoff].
    destruct Hno as [Hno|Hno]; [discriminate|].
    destruct (String.eqb (config.controller cfg) "MPC-DC") eqn:E.
    - destruct (Hdc eq_refl eq_refl) as [_ Hds]. rewrite Hno in Hds.
      simpl in Hds. now injection Hds as <-.
    - destruct (Hcbf eq_refl eq_refl) as [_ Hcs].
      unfold mpc_cbf.get_cbf_constraints in Hcs.
      apply bind_ok in Hcs as (xk1 & _ & Hcs).
      cbn [mpc_cbf.obs mpc_cbf.init_attrs] in Hcs. rewrite Hon, Hno in Hcs.
      simpl in Hcs. now injection Hcs as <-. }
  subst exprs. exists obj, cost, rhs. rewrite Hmpc.
  cbn [controller.nl_cons_list controller.mterm controller.lterm
       controller.rterm_u controller.bounds_lower_u controller.bounds_upper_u
       controller.model controller.set_x0].
  repeat split; auto.
Qed.

Lemma no_obstacle_pass_through_witness :
  let cfg :=
    {| config.sim_time := 2; config.Ts := 1; config.T_horizon := 2;
       config.x0 := [0; 0; 0]; config.v_limit := 1; config.omega_limit := 1;
       config.obstacles_on := false; config.obs := [(0, 0, 1)];
       config.r := 0; config.control_type := "setpoint";
       config.goal := [5; 5; 0]; config.gamma := 1 / 2;
       config.controller := "MPC-CBF"; config.trajectory := "circular";
       config.A := 1; config.w := 1;
       config.Q := [[1; 0; 0]; [0; 1; 0]; [0; 0; 1]];
       config.R := [[1; 0]; [0; 1]] |} in
  exists obj,
    mpc_cbf.__init__ cfg = Ok obj
    /\ controller.nl_cons_list (mpc_cbf.mpc obj) = [].
Proof.
  intros cfg.
  destruct (no_obstacle_pass_through cfg (or_introl eq_refl))
    as (obj & _ & _ & Hobj & Hnil & _).
  exists obj. split; assumption.
Defined.

(** The expression of the direct formulation is minus the barrier. *)
Lemma obs_avoid_eval (cfg : config.t) (obj : mpc_cbf.MPC) (o : obstacle)
  (d h_x : SX) (e : env) :
  mpc_cbf.__init__ cfg = Ok obj ->
  config.obstacles_on cfg = true ->
  mpc_cbf.obs_avoid (mpc_cbf.init_attrs cfg) (mpc_cbf.model obj) o = Ok d ->
  mpc_cbf.h (mpc_cbf.init_attrs cfg) (symbols "_x" "x" 3) o = Ok h_x ->
  eval e d = - eval e h_x.
Proof.
  intros Hobj Hon Hd Hh.
  destruct (init_ok cfg) as (obj' & c & Hobj' & _ & Hm & _).
  rewrite Hobj in Hobj'. injection Hobj' as <-.
  rewrite (obs_avoid_ok cfg _ o Hm Hon) in Hd. injection Hd as <-.
  destruct (h_eval _ o h_x e Hh) as (rr & Hr & ->).
  simpl in Hr. rewrite Hon in Hr. injection Hr as <-.
  simpl. lra.
Qed.

(** C6, as the code has it.  In the barrier formulation the generated
    inequality coincides with the clearance requirement of the direct
    formulation at the state one step ahead when [gamma = 1]; when
    [gamma = 0] it requires instead that the barrier does not decrease over
    the step. *)
Theorem cbf_direct_equivalence_boundary (cfg : config.t) (obj : mpc_cbf.MPC)
  (i : nat) (o : obstacle) (cbc : controller.nl_cons) (d h_x : SX)
  (rhs : vector) (e : env) :
  mpc_cbf.__init__ cfg = Ok obj ->
  config.obstacles_on cfg = true ->
  config.controller cfg <> "MPC-DC"%string ->
  nth_error (config.obs cfg) i = Some o ->
  nth_error (controller.nl_cons_list (mpc_cbf.mpc obj)) i = Some cbc ->
  mpc_cbf.obs_avoid (mpc_cbf.init_attrs cfg) (mpc_cbf.model obj) o = Ok d ->
  mpc_cbf.h (mpc_cbf.init_attrs cfg) (symbols "_x" "x" 3) o = Ok h_x ->
  getitem (model.rhs_list (mpc_cbf.model obj)) "x" = Ok rhs ->
  let e' := mpc_cbf.with_state e (eval_vector e rhs) in
  (config.gamma cfg = 1 ->
   (eval e (controller.expr cbc) <= controller.ub cbc <-> eval e' d <= 0)
   /\ (eval e' d <= 0 <-> 0 <= eval e' h_x))
  /\ (config.gamma cfg = 0 ->
      (eval e (controller.expr cbc) <= controller.ub cbc
       <-> eval e h_x <= eval e' h_x)).
Proof.
  intros Hobj Hon Hdc Ho Hcbc Hd Hh Hrhs e'.
  destruct (cbf_constraint_eval cfg obj i o cbc h_x rhs) as [Hub Hev]; auto.
  rewrite Hub, Hev. fold e'.
  rewrite (obs_avoid_eval cfg obj o d h_x e' Hobj Hon Hd Hh).
  split; intros Hg; rewrite Hg; repeat split; intros; lra.
Qed.

Lemma cbf_direct_equivalence_boundary_witness :
  let cfg := example_config "setpoint" "MPC-CBF" "circular" 1 in
  let e := mpc_cbf.env_of [2; 0; 0] [-1; 0] in
  exists obj cbc d rhs,
    mpc_cbf.__init__ cfg = Ok obj
    /\ nth_error (controller.nl_cons_list (mpc_cbf.mpc obj)) 0 = Some cbc
    /\ mpc_cbf.obs_avoid (mpc_cbf.init_attrs cfg) (mpc_cbf.model obj)
                         (0, 0, 1) = Ok d
    /\ getitem (model.rhs_list (mpc_cbf.model obj)) "x" = Ok rhs
    /\ (eval e (controller.expr cbc) <= controller.ub cbc
        <-> eval (mpc_cbf.with_state e (eval_vector e rhs)) d <= 0).
Proof.
  intros cfg e.
  eexists. eexists. eexists. eexists.
  split; [reflexivity|]. split; [reflexivity|]. split; [reflexivity|].
  split; [reflexivity|].
  refine (proj1 (proj1 (cbf_direct_equivalence_boundary cfg _ 0%nat (0, 0, 1)
                          _ _ _ _ e
                          eq_refl eq_refl _ eq_refl eq_refl eq_refl eq_refl
                          eq_refl)
                       eq_refl)).
  intros H. discriminate H.
Defined.

(** C6, as it is worded, fails: with [gamma = 0] the step from [(3, 0, 0)]
    with input [(-1, 0)] ends at [(2, 0, 0)], outside the obstacle, so the
    clearance requirement of the direct formulation holds there; the
    barrier falls from [8] to [3] and the generated inequality is
    violated. *)
Lemma cbf_gamma_zero_counterexample :
  let cfg := example_config "setpoint" "MPC-CBF" "circular" 0 in
  let e := mpc_cbf.env_of [3; 0; 0] [-1; 0] in
  exists obj cbc d h_x rhs,
    mpc_cbf.__init__ cfg = Ok obj
    /\ config.gamma cfg = 0
    /\ nth_error (config.obs cfg) 0 = Some (0, 0, 1)
    /\ nth_error (controller.nl_cons_list (mpc_cbf.mpc obj)) 0 = Some cbc
    /\ mpc_cbf.obs_avoid (mpc_cbf.init_attrs cfg) (mpc_cbf.model obj)
                         (0, 0, 1) = Ok d
    /\ mpc_cbf.h (mpc_cbf.init_attrs cfg) (symbols "_x" "x" 3) (0, 0, 1)
       = Ok h_x
    /\ getitem (model.rhs_list (mpc_cbf.model obj)) "x" = Ok rhs
    /\ eval_vector e rhs = [2; 0; 0]
    /\ eval (mpc_cbf.with_state e (eval_vector e rhs)) d <= 0
    /\ 0 <= eval (mpc_cbf.with_state e (eval_vector e rhs)) h_x
    /\ ~ (eval e (controller.expr cbc) <= controller.ub cbc).
Proof.
  intros cfg e.
  eexists. eexists. eexists. eexists. eexists.
  split; [reflexivity|]. split; [reflexivity|]. split; [reflexivity|].
  split; [reflexivity|]. split; [reflexivity|]. split; [reflexivity|].
  split; [reflexivity|].
  unfold e, mpc_cbf.env_of, mpc_cbf.with_state. simpl. rewrite cos_0, sin_0.
  repeat split; try lra.
  repeat f_equal; lra.
Qed.

(** ** The reference parameters *)

Lemma mapM_map {A B : Type} (f : A -> result B) (g : A -> B) (l : list A) :
  (forall a, In a l -> f a = Ok (g a)) -> mapM f l = Ok (map g l).
Proof.
  induction l as [|a l IH]; simpl; intros H; [reflexivity|].
  rewrite (H a) by now left. simpl.
  rewrite IH by (intros; apply H; now right). reflexivity.
Qed.

(** On such a structure the two assignments over all stages succeed and
    leave the two values at every stage. *)
Lemma assign_set_points (s : controller.tvp_struct) (x_traj y_traj : R) :
  set_point_struct s ->
  (s' <- controller.assign_all s "x_set_point" x_traj ;;
   s'' <- controller.assign_all s' "y_set_point" y_traj ;;
   Ok s'')
  = Ok (repeat [("x_set_point"%string, x_traj); ("y_set_point"%string, y_traj)]
               (List.length s)).
Proof.
  intros Hs. unfold controller.assign_all.
  rewrite (mapM_map _ (fun stage =>
             [("x_set_point"%string, x_traj);
              ("y_set_point"%string, nth 1 (map snd stage) 0)]) s).
  - cbn [bind].
    rewrite (mapM_map _ (fun _ =>
               [("x_set_point"%string, x_traj);
                ("y_set_point"%string, y_traj)])).
    + cbn [bind]. f_equal. rewrite map_map. clear Hs.
      induction s as [|a s IH]; simpl; [reflexivity | now rewrite IH].
    + intros stage Hin. apply in_map_iff in Hin as (st & <- & _).
      reflexivity.
  - intros stage Hin. unfold set_point_struct in Hs.
    rewrite Forall_forall in Hs. specialize (Hs stage Hin).
    destruct stage as [|[k1 v1] [|[k2 v2] [|? ?]]]; try discriminate.
    simpl in Hs. injection Hs as -> ->. reflexivity.
Qed.

Lemma set_point_struct_repeat (x_traj y_traj : R) (n : nat) :
  set_point_struct
    (repeat [("x_set_point"%string, x_traj); ("y_set_point"%string, y_traj)]
            n).
Proof.
  unfold set_point_struct. apply Forall_forall. intros stage Hin.
  apply repeat_spec in Hin. now subst.
Qed.

(** In trajectory-tracking mode the controller of [__init__] has the
    closure [tvp_fun_mpc] as parameter function, and every content that the
    shared structure can have declares the two set-point names at its
    [T_horizon + 1] stages. *)
Lemma tvp_fun_of_init (cfg : config.t) (obj : mpc_cbf.MPC) :
  mpc_cbf.__init__ cfg = Ok obj ->
  config.control_type cfg = "traj_tracking"%string ->
  controller.tvp_fun (mpc_cbf.mpc obj) = Some (mpc_cbf.tvp_fun_mpc cfg)
  /\ forall s,
       tvp_reachable (mpc_cbf.tvp_fun_mpc cfg)
                     (controller.get_tvp_template (mpc_cbf.mpc obj)) s ->
       set_point_struct s /\ List.length s = S (config.T_horizon cfg).
Proof.
  intros Hobj Ht.
  destruct (init_ok cfg) as (obj' & c & Hobj' & _ & Hm & Hc & Hmpc & _).
  rewrite Hobj in Hobj'. injection Hobj' as <-.
  destruct (define_mpc_ok cfg _ Hm)
    as (c' & cost & prefix & exprs & Hc' & Hmod & _ & Hn & _ & _ & _ & _ & _
        & _ & _ & Htvp & _).
  rewrite Hc in Hc'. injection Hc' as <-.
  destruct (define_model_ok cfg) as (m' & _ & _ & Hm' & _ & _ & _ & _ & _ & Hmt).
  rewrite Hm in Hm'. injection Hm' as <-.
  rewrite Ht in Htvp, Hmt. simpl in Htvp, Hmt.
  rewrite Hmpc. split; [exact Htvp|].
  assert (Htpl : controller.get_tvp_template (controller.set_x0 c (config.x0 cfg))
                 = repeat [("x_set_point"%string, 0); ("y_set_point"%string, 0)]
                          (S (config.T_horizon cfg))).
  { unfold controller.get_tvp_template, tvp_zero.
    cbn [controller.model controller.n_horizon controller.set_x0].
    rewrite Hmod, Hn, Hmt. reflexivity. }
  rewrite Htpl. intros s Hs. induction Hs as [|s t s' Hs [IH1 IH2] Hcall].
  - split; [apply set_point_struct_repeat | apply repeat_length].
  - unfold mpc_cbf.tvp_fun_mpc in Hcall.
    destruct (if String.eqb (config.trajectory cfg) "circular" then _ else _)
      as [x_traj y_traj].
    rewrite (assign_set_points s x_traj y_traj IH1) in Hcall.
    injection Hcall as <-. rewrite IH2.
    split; [apply set_point_struct_repeat | apply repeat_length].
Qed.

(** C7.  In trajectory-tracking mode with the circular trajectory, every
    call [tvp_fun_mpc(t_now)] of the controller's parameter function
    succeeds and leaves, at every stage [k = 0, ..., T_horizon] of the
    horizon, the set point [(A cos(w t_now), A sin(w t_now))]: the
    reference of the current time, not advanced along the horizon. *)
Theorem reference_fixed_across_horizon (cfg : config.t) (obj : mpc_cbf.MPC)
  (f : R -> controller.tvp_struct -> result controller.tvp_struct)
  (s : controller.tvp_struct) (t_now : R) :
  mpc_cbf.__init__ cfg = Ok obj ->
  config.control_type cfg = "traj_tracking"%string ->
  config.trajectory cfg = "circular"%string ->
  controller.tvp_fun (mpc_cbf.mpc obj) = Some f ->
  tvp_reachable f (controller.get_tvp_template (mpc_cbf.mpc obj)) s ->
  exists s',
    f t_now s = Ok s'
    /\ List.length s' = S (config.T_horizon cfg)
    /\ forall k, (k <= config.T_horizon cfg)%nat ->
         exists stage,
           nth_error s' k = Some stage
           /\ getitem stage "x_set_point"
              = Ok (config.A cfg * cos (config.w cfg * t_now))
           /\ getitem stage "y_set_point"
              = Ok (config.A cfg * sin (config.w cfg * t_now)).
Proof.
  intros Hobj Ht Hc Hf Hs.
  destruct (tvp_fun_of_init cfg obj Hobj Ht) as [Hf' Hinv].
  rewrite Hf in Hf'. injection Hf' as ->.
  destruct (Hinv s Hs) as [Hsp Hlen].
  eexists.
  unfold mpc_cbf.tvp_fun_mpc. rewrite Hc. cbn [String.eqb Ascii.eqb Bool.eqb].
  rewrite (assign_set_points s _ _ Hsp). split; [reflexivity|].
  rewrite Hlen. split; [apply repeat_length|].
  intros k Hk. eexists. split.
  - apply nth_error_repeat. lia.
  - split; reflexivity.
Qed.

Lemma reference_fixed_across_horizon_witness :
  let cfg := example_config "traj_tracking" "MPC-CBF" "circular" (1 / 2) in
  exists obj f s' stage,
    mpc_cbf.__init__ cfg = Ok obj
    /\ controller.tvp_fun (mpc_cbf.mpc obj) = Some f
    /\ f 3 (controller.get_tvp_template (mpc_cbf.mpc obj)) = Ok s'
    /\ nth_error s' 2 = Some stage
    /\ getitem stage "x_set_point" = Ok (1 * cos (1 * 3))
    /\ getitem stage "y_set_point" = Ok (1 * sin (1 * 3)).
Proof.
  intros cfg.
  destruct (init_ok cfg) as (obj & _ & Hobj & _).
  destruct (tvp_fun_of_init cfg obj Hobj eq_refl) as [Hf _].
  destruct (reference_fixed_across_horizon cfg obj _
              (controller.get_tvp_template (mpc_cbf.mpc obj)) 3
              Hobj eq_refl eq_refl Hf (tvp_reachable_template _ _))
    as (s' & Hs' & _ & Hall).
  destruct (Hall 2%nat (le_n 2)) as (stage & Hk & Hx & Hy).
  exists obj, (mpc_cbf.tvp_fun_mpc cfg), s', stage.
  repeat split; assumption.
Defined.

(** C8, as the code has it.  In [mpc_cbf.py] nothing checks the trajectory
    type: in trajectory-tracking mode, for every trajectory type other than
    "circular", whether or not it names a family, every call
    [tvp_fun_mpc(t_now)] on the assembled controller succeeds and leaves at
    every stage of the horizon the figure-eight set point
    [(A cos(w t) / (sin(w t)^2 + 1), A sin(w t) cos(w t) / (sin(w t)^2 + 1))]
    for [t = t_now]. *)
Theorem unknown_trajectory_is_figure_eight (cfg : config.t)
  (obj : mpc_cbf.MPC)
  (f : R -> controller.tvp_struct -> result controller.tvp_struct)
  (s : controller.tvp_struct) (t_now : R) :
  mpc_cbf.__init__ cfg = Ok obj ->
  config.control_type cfg = "traj_tracking"%string ->
  config.trajectory cfg <> "circular"%string ->
  controller.tvp_fun (mpc_cbf.mpc obj) = Some f ->
  tvp_reachable f (controller.get_tvp_template (mpc_cbf.mpc obj)) s ->
  exists s',
    f t_now s = Ok s'
    /\ List.length s' = S (config.T_horizon cfg)
    /\ forall k, (k <= config.T_horizon cfg)%nat ->
         exists stage,
           nth_error s' k = Some stage
           /\ getitem stage "x_set_point"
              = Ok (config.A cfg * cos (config.w cfg * t_now)
                    / (sin (config.w cfg * t_now) ^ 2 + 1))
           /\ getitem stage "y_set_point"
              = Ok (config.A cfg * sin (config.w cfg * t_now)
                    * cos (config.w cfg * t_now)
                    / (sin (config.w cfg * t_now) ^ 2 + 1)).
Proof.
  intros Hobj Ht Hc Hf Hs. apply String.eqb_neq in Hc.
  destruct (tvp_fun_of_init cfg obj Hobj Ht) as [Hf' Hinv].
  rewrite Hf in Hf'. injection Hf' as ->.
  destruct (Hinv s Hs) as [Hsp Hlen].
  eexists. unfold mpc_cbf.tvp_fun_mpc. rewrite Hc.
  rewrite (assign_set_points s _ _ Hsp). split; [reflexivity|].
  rewrite Hlen. split; [apply repeat_length|].
  intros k Hk. eexists. split.
  - apply nth_error_repeat. lia.
  - split; reflexivity.
Qed.

Lemma unknown_trajectory_is_figure_eight_witness :
  let cfg := example_tracking_config "traj_tracking" "lemniscate" in
  exists obj f s' stage,
    mpc_cbf.__init__ cfg = Ok obj
    /\ controller.tvp_fun (mpc_cbf.mpc obj) = Some f
    /\ f 3 (controller.get_tvp_template (mpc_cbf.mpc obj)) = Ok s'
    /\ nth_error s' 0 = Some stage
    /\ getitem stage "x_set_point"
       = Ok (1 * cos (1 * 3) / (sin (1 * 3) ^ 2 + 1)).
Proof.
  intros cfg.
  destruct (init_ok cfg) as (obj & _ & Hobj & _).
  destruct (tvp_fun_of_init cfg obj Hobj eq_refl) as [Hf _].
  destruct (unknown_trajectory_is_figure_eight cfg obj
              (mpc_cbf.tvp_fun_mpc cfg)
              (controller.get_tvp_template (mpc_cbf.mpc obj)) 3
              Hobj eq_refl) as (s' & Hs' & _ & Hk).
  - intros H. discriminate H.
  - exact Hf.
  - apply tvp_reachable_template.
  - destruct (Hk 0%nat (Nat.le_0_l _)) as (stage & Hst & Hx & _).
    exists obj, (mpc_cbf.tvp_fun_mpc cfg), s', stage.
    repeat split; assumption.
Defined.

(** C8, as it is worded, fails: with the trajectory type "spiral", which
    names no family, no line of [__init__] raises, and the parameter
    function of the assembled controller returns the figure-eight set
    point at every stage. *)
Lemma unknown_trajectory_counterexample :
  let cfg := example_tracking_config "traj_tracking" "spiral" in
  config.control_type cfg = "traj_tracking"%string
  /\ config.trajectory cfg = "spiral"%string
  /\ exists obj f,
       mpc_cbf.__init__ cfg = Ok obj
       /\ controller.tvp_fun (mpc_cbf.mpc obj) = Some f
       /\ f 0 (controller.get_tvp_template (mpc_cbf.mpc obj))
          = Ok (repeat
                  [("x_set_point"%string,
                    1 * cos (1 * 0) / (sin (1 * 0) ^ 2 + 1));
                   ("y_set_point"%string,
                    1 * sin (1 * 0) * cos (1 * 0) / (sin (1 * 0) ^ 2 + 1))]
                  3).
Proof.
  intros cfg. split; [reflexivity|]. split; [reflexivity|].
  eexists. eexists. split; [reflexivity|]. split; reflexivity.
Qed.

(** X19.  The older variant binds the set point for the circular
    trajectory only: for every other trajectory type its parameter function
    raises at its first use of [x_traj]. *)
Lemma old_tvp_fun_unbound (cfg : config.t) (t_now : R)
  (s : controller.tvp_struct) :
  config.trajectory cfg <> "circular"%string ->
  mpc_cbf_old.tvp_fun_mpc cfg t_now s = Raise (UnboundLocalError "x_traj").
Proof.
  intros Hc. apply String.eqb_neq in Hc.
  unfold mpc_cbf_old.tvp_fun_mpc. now rewrite Hc.
Qed.

(** ** The closed loop *)

Section closed_loop_properties.

Variable world : Type.
Variables mpc_step simulator_step estimator_step :
  world -> list R -> result (list R * world).

Let loop := mpc_cbf.run_simulation_loop world mpc_step simulator_step
                                        estimator_step.
Let cycles := mpc_cbf.cycles world mpc_step simulator_step estimator_step.
Let cycle_fails :=
  mpc_cbf.cycle_fails world mpc_step simulator_step estimator_step.

Lemma cycles_log_length n x w log xf wf :
  cycles n x w log xf wf -> List.length log = (3 * n)%nat.
Proof.
  induction 1; simpl; [reflexivity | lia].
Qed.

(** The loop returns exactly when its cycles all succeed, and then it has
    appended their calls to the log. *)
Lemma run_simulation_loop_ok ks x w log xf wf logf :
  loop ks x w log = Ok (xf, wf, logf) <->
  exists log', logf = log ++ log'
               /\ cycles (List.length ks) x w log' xf wf.
Proof.
  revert x w log. induction ks as [|k ks IH]; intros x w log; simpl.
  - split.
    + intros H. injection H as <- <- <-. exists []. rewrite app_nil_r.
      split; [reflexivity | constructor].
    + intros (log' & -> & Hc). inversion Hc; subst.
      now rewrite app_nil_r.
  - split.
    + intros H.
      destruct (mpc_step w x) as [[u w1]|e] eqn:E1; [|discriminate].
      cbn [bind] in H.
      destruct (simulator_step w1 u) as [[y w2]|e] eqn:E2; [|discriminate].
      cbn [bind] in H.
      destruct (estimator_step w2 y) as [[x' w3]|e] eqn:E3; [|discriminate].
      cbn [bind] in H. apply IH in H as (log' & -> & Hc).
      eexists. split.
      * rewrite <- !app_assoc. simpl. reflexivity.
      * econstructor; eassumption.
    + intros (log' & -> & Hc). inversion Hc as [|? ? ? u w1 y w2 x' w3 log'' ? ? E1 E2 E3 Hc']; subst.
      rewrite E1. cbn [bind]. rewrite E2. cbn [bind]. rewrite E3.
      cbn [bind]. apply IH. exists log''. split; [|exact Hc'].
      rewrite <- !app_assoc. reflexivity.
Qed.

(** The loop raises exactly when, after some complete cycles, fewer than
    the length of the range, a stage of the next cycle raises. *)
Lemma run_simulation_loop_raise ks x w log e :
  loop ks x w log = Raise e <->
  exists m x' w' log',
    (m < List.length ks)%nat
    /\ cycles m x w log' x' w' /\ cycle_fails x' w' e.
Proof.
  revert x w log. induction ks as [|k ks IH]; intros x w log; simpl.
  - split; [discriminate|]. intros (m & _ & _ & _ & Hm & _). lia.
  - split.
    + intros H.
      destruct (mpc_step w x) as [[u w1]|e1] eqn:E1.
      2:{ injection H as ->. exists 0%nat, x, w, []. split; [lia|].
          split; [constructor | now left]. }
      cbn [bind] in H.
      destruct (simulator_step w1 u) as [[y w2]|e2] eqn:E2.
      2:{ injection H as ->. exists 0%nat, x, w, []. split; [lia|].
          split; [constructor | right; left; eauto]. }
      cbn [bind] in H.
      destruct (estimator_step w2 y) as [[x' w3]|e3] eqn:E3.
      2:{ injection H as ->. exists 0%nat, x, w, []. split; [lia|].
          split; [constructor | right; right; eauto 10]. }
      cbn [bind] in H. apply IH in H as (m & xm & wm & log' & Hm & Hc & Hf).
      exists (S m), xm, wm. eexists. split; [lia|]. split; [|exact Hf].
      econstructor; eassumption.
    + intros (m & xm & wm & log' & Hm & Hc & Hf).
      inversion Hc as [|? ? ? u w1 y w2 x' w3 log'' ? ? E1 E2 E3 Hc']; subst.
      * destruct Hf as [Hf|[(u & w1 & E1 & Hf)|(u & w1 & y & w2 & E1 & E2 & Hf)]].
        -- now rewrite Hf.
        -- rewrite E1. cbn [bind]. now rewrite Hf.
        -- rewrite E1. cbn [bind]. rewrite E2. cbn [bind]. now rewrite Hf.
      * rewrite E1. cbn [bind]. rewrite E2. cbn [bind]. rewrite E3.
        cbn [bind]. apply IH. exists n, xm, wm, log''.
        split; [lia|]. split; assumption.
Qed.

End closed_loop_properties.

Lemma range_length (n : Z) : List.length (range n) = Z.to_nat n.
Proof. unfold range. now rewrite length_map, length_seq. Qed.

(** C9.  [run_simulation] returns exactly when [sim_time] cycles succeed
    one after the other from the initial state [x0]: each cycle calls the
    controller on the current estimated state, the simulator on the input
    that the controller returned, and the estimator on the output of the
    simulator, and the output of the estimator is the state of the next
    cycle; the log then holds these [3 * sim_time] calls in this order.
    It raises exactly when a stage of one of these cycles raises, after
    the complete cycles before it. *)
Theorem run_simulation_cycles (world : Type)
  (mpc_step simulator_step estimator_step :
     world -> list R -> result (list R * world))
  (self : mpc_cbf.attrs) (w : world) :
  let n := Z.to_nat (mpc_cbf.sim_time self) in
  let run :=
    mpc_cbf.run_simulation world mpc_step simulator_step estimator_step
                           self w in
  let cycles :=
    mpc_cbf.cycles world mpc_step simulator_step estimator_step in
  let cycle_fails :=
    mpc_cbf.cycle_fails world mpc_step simulator_step estimator_step in
  (forall xf wf log,
     run = Ok (xf, wf, log) <-> cycles n (mpc_cbf.x0 self) w log xf wf)
  /\ (forall xf wf log,
        run = Ok (xf, wf, log) -> List.length log = (3 * n)%nat)
  /\ (forall e,
        run = Raise e <->
        exists m x' w' log',
          (m < n)%nat
          /\ cycles m (mpc_cbf.x0 self) w log' x' w'
          /\ cycle_fails x' w' e).
Proof.
  intros n run cycles cycle_fails. unfold run, mpc_cbf.run_simulation.
  assert (Hok : forall xf wf log,
            mpc_cbf.run_simulation_loop world mpc_step simulator_step
              estimator_step (range (mpc_cbf.sim_time self))
              (mpc_cbf.x0 self) w [] = Ok (xf, wf, log)
            <-> cycles n (mpc_cbf.x0 self) w log xf wf).
  { intros xf wf log. rewrite run_simulation_loop_ok, range_length.
    simpl. split.
    - intros (log' & -> & Hc). exact Hc.
    - intros Hc. exists log. split; [reflexivity | exact Hc]. }
  split; [exact Hok|]. split.
  - intros xf wf log H. apply Hok in H.
    now apply cycles_log_length in H.
  - intros e. rewrite run_simulation_loop_raise, range_length. reflexivity.
Qed.

Lemma run_simulation_cycles_witness :
  let mpc_step := fun (w : nat) (x : list R) => Ok ([1; 0], S w) in
  let simulator_step := fun (w : nat) (u : list R) => Ok (u ++ [0], S w) in
  let estimator_step := fun (w : nat) (y : list R) => Ok (y, S w) in
  let self :=
    mpc_cbf.init_attrs (example_config "setpoint" "MPC-CBF" "circular" 1) in
  mpc_cbf.cycles nat mpc_step simulator_step estimator_step
    2 [2; 0; 0] 0%nat
    [mpc_cbf.mpc_make_step [2; 0; 0] [1; 0];
     mpc_cbf.simulator_make_step [1; 0] [1; 0; 0];
     mpc_cbf.estimator_make_step [1; 0; 0] [1; 0; 0];
     mpc_cbf.mpc_make_step [1; 0; 0] [1; 0];
     mpc_cbf.simulator_make_step [1; 0] [1; 0; 0];
     mpc_cbf.estimator_make_step [1; 0; 0] [1; 0; 0]]
    [1; 0; 0] 6%nat.
Proof.
  intros mpc_step simulator_step estimator_step self.
  apply (proj1 (run_simulation_cycles nat mpc_step simulator_step
                  estimator_step self 0%nat)).
  reflexivity.
Defined.

(* ================================================================= *)
(** * Further properties of the code *)

(** ** The direct formulation *)

(** X1.  In the direct formulation (obstacles on, controller "MPC-DC") the
    controller of [__init__] carries exactly one inequality per configured
    obstacle: the one of obstacle number [i] is named
    ["obstacle_constraint" ++ str i], has the upper bound [0], mentions no
    input symbol, and holds exactly when the squared distance of the state
    to the centre of the obstacle is at least the square of the sum of the
    two radii. *)
Theorem dc_constraint_per_obstacle (cfg : config.t) :
  config.obstacles_on cfg = true ->
  config.controller cfg = "MPC-DC"%string ->
  exists obj,
    mpc_cbf.__init__ cfg = Ok obj
    /\ List.length (controller.nl_cons_list (mpc_cbf.mpc obj)) =
         List.length (config.obs cfg)
    /\ forall i o,
         nth_error (config.obs cfg) i = Some o ->
         exists d,
           mpc_cbf.obs_avoid (mpc_cbf.init_attrs cfg) (mpc_cbf.model obj) o
           = Ok d
           /\ nth_error (controller.nl_cons_list (mpc_cbf.mpc obj)) i =
                Some (controller.mk_nl_cons
                        ("obstacle_constraint" ++ str i) d 0)
           /\ mentions "_u" d = false
           /\ forall e : env,
                eval e d <= 0 <->
                (config.r cfg + snd o) ^ 2
                <= (e (Sym "_x" "x" 0) - fst (fst o)) ^ 2
                   + (e (Sym "_x" "x" 1) - snd (fst o)) ^ 2.
Proof.
  intros Hon Hdc.
  destruct (init_ok cfg) as (obj & c & Hobj & _ & Hm & Hc & Hmpc & _).
  destruct (define_mpc_ok cfg _ Hm)
    as (c' & cost & prefix & exprs & Hc' & _ & _ & _ & _ & _ & _ & _ & _ & _
        & _ & _ & Hcons & _ & Hdir & _).
  rewrite Hc in Hc'. injection Hc' as <-.
  apply String.eqb_eq in Hdc.
  destruct (Hdir Hon Hdc) as [-> Hds].
  exists obj. split; [exact Hobj|].
  rewrite Hmpc. cbn [controller.nl_cons_list controller.set_x0].
  rewrite Hcons. split.
  - rewrite length_numbered. now apply mapM_length in Hds.
  - intros i o Hi.
    destruct (mapM_nth _ _ _ i o Hds Hi) as (d & Hd & Hfo).
    exists d. split; [exact Hfo|]. split.
    + rewrite nth_error_numbered, Hd. reflexivity.
    + rewrite (obs_avoid_ok cfg _ o Hm Hon) in Hfo. injection Hfo as <-.
      split; [reflexivity|]. intros e. simpl. split; intros H; lra.
Qed.

Lemma dc_constraint_per_obstacle_witness :
  let cfg := example_config "setpoint" "MPC-DC" "circular" (1 / 2) in
  exists obj d,
    mpc_cbf.__init__ cfg = Ok obj
    /\ controller.nl_cons_list (mpc_cbf.mpc obj) =
         [controller.mk_nl_cons "obstacle_constraint0" d 0].
Proof.
  intros cfg.
  destruct (dc_constraint_per_obstacle cfg eq_refl eq_refl)
    as (obj & Hobj & Hlen & Hall).
  destruct (Hall 0%nat (0, 0, 1) eq_refl) as (d & _ & Hnth & _).
  exists obj, d. split; [exact Hobj|].
  destruct (controller.nl_cons_list (mpc_cbf.mpc obj)) as [|c [|c' l]];
    try discriminate.
  simpl in Hnth. now injection Hnth as ->.
Defined.

(** ** More on the barrier constraints *)

(** The state update of the model of [__init__], evaluated. *)
Lemma model_rhs_eval (cfg : config.t) (obj : mpc_cbf.MPC) (rhs : vector)
  (e : env) :
  mpc_cbf.__init__ cfg = Ok obj ->
  getitem (model.rhs_list (mpc_cbf.model obj)) "x" = Ok rhs ->
  eval_vector e rhs =
    [e (Sym "_x" "x" 0)
     + (cos (e (Sym "_x" "x" 2)) * e (Sym "_u" "u" 0)
        + - mpc_cbf.a * sin (e (Sym "_x" "x" 2)) * e (Sym "_u" "u" 1))
       * config.Ts cfg;
     e (Sym "_x" "x" 1)
     + (sin (e (Sym "_x" "x" 2)) * e (Sym "_u" "u" 0)
        + mpc_cbf.a * cos (e (Sym "_x" "x" 2)) * e (Sym "_u" "u" 1))
       * config.Ts cfg;
     e (Sym "_x" "x" 2)
     + (0 * e (Sym "_u" "u" 0) + 1 * e (Sym "_u" "u" 1)) * config.Ts cfg].
Proof.
  intros Hobj Hrhs.
  destruct (init_ok cfg) as (obj' & c & Hobj' & _ & Hm & _).
  rewrite Hobj in Hobj'. injection Hobj' as <-.
  destruct (define_model_ok cfg) as (m & B & cost & Hm' & HB & _ & _ & Hr & _).
  rewrite Hm in Hm'. injection Hm' as <-.
  rewrite Hr in Hrhs. simpl in Hrhs. injection Hrhs as <-.
  injection HB as <-. reflexivity.
Qed.

(** X2.  Standing still.  In the barrier formulation, under a zero input
    the generated inequality of every obstacle has the value
    [- gamma * h(x)]: with [gamma >= 0] it holds at every state at which
    the barrier is non-negative, and with [gamma > 0] it fails at every
    state at which the barrier is negative. *)
Theorem cbf_standing_still (cfg : config.t) (obj : mpc_cbf.MPC) (i : nat)
  (o : obstacle) (cbc : controller.nl_cons) (h_x : SX) (e : env) :
  mpc_cbf.__init__ cfg = Ok obj ->
  config.obstacles_on cfg = true ->
  config.controller cfg <> "MPC-DC"%string ->
  nth_error (config.obs cfg) i = Some o ->
  nth_error (controller.nl_cons_list (mpc_cbf.mpc obj)) i = Some cbc ->
  mpc_cbf.h (mpc_cbf.init_attrs cfg) (symbols "_x" "x" 3) o = Ok h_x ->
  e (Sym "_u" "u" 0) = 0 ->
  e (Sym "_u" "u" 1) = 0 ->
  eval e (controller.expr cbc) = - (config.gamma cfg * eval e h_x)
  /\ (0 <= config.gamma cfg -> 0 <= eval e h_x ->
      eval e (controller.expr cbc) <= controller.ub cbc)
  /\ (0 < config.gamma cfg -> eval e h_x < 0 ->
      ~ eval e (controller.expr cbc) <= controller.ub cbc).
Proof.
  intros Hobj Hon Hdc Ho Hcbc Hh Hv Hw.
  destruct (cbf_constraint_shape cfg obj Hobj Hon Hdc)
    as (rhs & _ & Hrhs & _).
  destruct (cbf_constraint_eval cfg obj i o cbc h_x rhs) as [Hub Hev]; auto.
  assert (Hsame : eval (mpc_cbf.with_state e (eval_vector e rhs)) h_x
                  = eval e h_x).
  { apply (h_eval_ext (mpc_cbf.init_attrs cfg) o); [exact Hh| |];
      rewrite (model_rhs_eval cfg obj rhs e Hobj Hrhs);
      unfold mpc_cbf.with_state; simpl; rewrite Hv, Hw; lra. }
  rewrite Hub, Hev, Hsame. repeat split; intros; nra.
Qed.

Lemma cbf_standing_still_witness :
  let cfg := example_config "setpoint" "MPC-CBF" "circular" (1 / 2) in
  let e := mpc_cbf.env_of [2; 0; 0] [0; 0] in
  exists obj cbc,
    mpc_cbf.__init__ cfg = Ok obj
    /\ nth_error (controller.nl_cons_list (mpc_cbf.mpc obj)) 0 = Some cbc
    /\ eval e (controller.expr cbc) <= controller.ub cbc.
Proof.
  intros cfg e.
  eexists. eexists.
  split; [reflexivity|]. split; [reflexivity|].
  refine (proj1 (proj2 (cbf_standing_still cfg _ 0%nat (0, 0, 1) _ _ e
                          eq_refl eq_refl _ eq_refl eq_refl eq_refl
                          eq_refl eq_refl)) _ _).
  - intros H. discriminate H.
  - simpl. lra.
  - unfold e, mpc_cbf.env_of. simpl. lra.
Defined.

(** X3.  A larger [gamma] gives a weaker inequality.  For two
    configurations in the barrier formulation with the same sampling time
    and robot radius and the same obstacle at position [i], if
    [gamma1 <= gamma2] then, at every state at which the barrier is
    non-negative, the inequality generated under [gamma1] implies the one
    generated under [gamma2]. *)
Theorem cbf_weaker_for_larger_gamma (cfg1 cfg2 : config.t)
  (obj1 obj2 : mpc_cbf.MPC) (i : nat) (o : obstacle)
  (cbc1 cbc2 : controller.nl_cons) (h_x : SX) (e : env) :
  mpc_cbf.__init__ cfg1 = Ok obj1 ->
  mpc_cbf.__init__ cfg2 = Ok obj2 ->
  config.obstacles_on cfg1 = true ->
  config.obstacles_on cfg2 = true ->
  config.controller cfg1 <> "MPC-DC"%string ->
  config.controller cfg2 <> "MPC-DC"%string ->
  config.Ts cfg1 = config.Ts cfg2 ->
  config.r cfg1 = config.r cfg2 ->
  nth_error (config.obs cfg1) i = Some o ->
  nth_error (config.obs cfg2) i = Some o ->
  nth_error (controller.nl_cons_list (mpc_cbf.mpc obj1)) i = Some cbc1 ->
  nth_error (controller.nl_cons_list (mpc_cbf.mpc obj2)) i = Some cbc2 ->
  mpc_cbf.h (mpc_cbf.init_attrs cfg1) (symbols "_x" "x" 3) o = Ok h_x ->
  config.gamma cfg1 <= config.gamma cfg2 ->
  0 <= eval e h_x ->
  eval e (controller.expr cbc1) <= controller.ub cbc1 ->
  eval e (controller.expr cbc2) <= controller.ub cbc2.
Proof.
  intros Hobj1 Hobj2 Hon1 Hon2 Hdc1 Hdc2 HTs Hr Ho1 Ho2 Hc1 Hc2 Hh Hg Hsafe H1.
  destruct (cbf_constraint_shape cfg1 obj1 Hobj1 Hon1 Hdc1)
    as (rhs1 & _ & Hrhs1 & _).
  destruct (cbf_constraint_shape cfg2 obj2 Hobj2 Hon2 Hdc2)
    as (rhs2 & _ & Hrhs2 & _).
  assert (Hh2 : mpc_cbf.h (mpc_cbf.init_attrs cfg2) (symbols "_x" "x" 3) o
                = Ok h_x).
  { rewrite <- Hh. destruct o as [[x_obs y_obs] r_obs].
    unfold mpc_cbf.h. simpl. now rewrite Hon1, Hon2, Hr. }
  destruct (cbf_constraint_eval cfg1 obj1 i o cbc1 h_x rhs1) as [Hub1 Hev1];
    auto.
  destruct (cbf_constraint_eval cfg2 obj2 i o cbc2 h_x rhs2) as [Hub2 Hev2];
    auto.
  assert (Hsame : eval_vector e rhs1 = eval_vector e rhs2).
  { rewrite (model_rhs_eval cfg1 obj1 rhs1 e Hobj1 Hrhs1).
    rewrite (model_rhs_eval cfg2 obj2 rhs2 e Hobj2 Hrhs2).
    now rewrite HTs. }
  rewrite Hub1, Hev1 in H1. rewrite Hub2, Hev2, <- Hsame. nra.
Qed.

Lemma cbf_weaker_for_larger_gamma_witness :
  let cfg1 := example_config "setpoint" "MPC-CBF" "circular" (1 / 2) in
  let cfg2 := example_config "setpoint" "MPC-CBF" "circular" 1 in
  let e := mpc_cbf.env_of [2; 0; 0] [1; 0] in
  exists obj2 cbc2,
    mpc_cbf.__init__ cfg2 = Ok obj2
    /\ nth_error (controller.nl_cons_list (mpc_cbf.mpc obj2)) 0 = Some cbc2
    /\ eval e (controller.expr cbc2) <= controller.ub cbc2.
Proof.
  intros cfg1 cfg2 e.
  eexists. eexists.
  split; [reflexivity|]. split; [reflexivity|].
  refine (cbf_weaker_for_larger_gamma cfg1 cfg2 _ _ 0%nat (0, 0, 1) _ _ _ e
            eq_refl eq_refl eq_refl eq_refl _ _ eq_refl eq_refl
            eq_refl eq_refl eq_refl eq_refl eq_refl _ _ _).
  - intros H. discriminate H.
  - intros H. discriminate H.
  - simpl. lra.
  - unfold e, mpc_cbf.env_of. simpl. lra.
  - unfold e, mpc_cbf.env_of. simpl. rewrite cos_0, sin_0. lra.
Defined.

(** ** More on the kinematic model *)

(** X4.  The regularisation makes the position rows of [B] invertible: at
    every heading their determinant is [a > 0], so every displacement
    [(dx, dy)] is produced by exactly one input [(v, omega)]. *)
Theorem sys_matrix_B_position_rows_invertible (e : env) :
  exists B b00 b01 b10 b11,
    mpc_cbf.get_sys_matrix_B (symbols "_x" "x" 3) = Ok B
    /\ map (eval_vector e) B = [[b00; b01]; [b10; b11]; [0; 1]]
    /\ b00 * b11 - b01 * b10 = mpc_cbf.a
    /\ 0 < mpc_cbf.a
    /\ forall dx dy : R,
         exists v omega,
           (b00 * v + b01 * omega = dx /\ b10 * v + b11 * omega = dy)
           /\ forall v' omega',
                b00 * v' + b01 * omega' = dx ->
                b10 * v' + b11 * omega' = dy ->
                v' = v /\ omega' = omega.
Proof.
  set (theta := e (Sym "_x" "x" 2)).
  assert (Ha : 0 < mpc_cbf.a) by (unfold mpc_cbf.a; lra).
  assert (Hsc : sin theta * sin theta + cos theta * cos theta = 1).
  { generalize (sin2_cos2 theta). unfold Rsqr. auto. }
  eexists. exists (cos theta), (- mpc_cbf.a * sin theta), (sin theta),
    (mpc_cbf.a * cos theta).
  split; [reflexivity|]. split; [reflexivity|].
  split; [nra|]. split; [exact Ha|].
  intros dx dy.
  set (v := cos theta * dx + sin theta * dy).
  set (omega := (cos theta * dy - sin theta * dx) / mpc_cbf.a).
  assert (Hw : mpc_cbf.a * omega = cos theta * dy - sin theta * dx)
    by (unfold omega; field; lra).
  exists v, omega. split.
  - split.
    + replace (cos theta * v + - mpc_cbf.a * sin theta * omega)
        with (cos theta * v - sin theta * (mpc_cbf.a * omega)) by ring.
      rewrite Hw. unfold v.
      transitivity (dx * (sin theta * sin theta + cos theta * cos theta));
        [ring | rewrite Hsc; ring].
    + replace (sin theta * v + mpc_cbf.a * cos theta * omega)
        with (sin theta * v + cos theta * (mpc_cbf.a * omega)) by ring.
      rewrite Hw. unfold v.
      transitivity (dy * (sin theta * sin theta + cos theta * cos theta));
        [ring | rewrite Hsc; ring].
  - intros v' omega' H1 H2.
    assert (Hv : v' = v).
    { transitivity (v' * (sin theta * sin theta + cos theta * cos theta));
        [rewrite Hsc; ring|].
      unfold v. rewrite <- H1, <- H2. ring. }
    split; [exact Hv|].
    apply (Rmult_eq_reg_l mpc_cbf.a); [|lra].
    rewrite Hw.
    transitivity (mpc_cbf.a * omega'
                  * (sin theta * sin theta + cos theta * cos theta));
      [rewrite Hsc; ring|].
    rewrite <- H1, <- H2. ring.
Qed.

(** X5.  One step of the model differs from the step of the exact unicycle
    [(x + v cos(theta) Ts, y + v sin(theta) Ts, theta + omega Ts)] in the
    position only, by a vector of length [a * |omega * Ts|]; the heading
    advances by [omega * Ts] exactly. *)
Theorem model_step_near_unicycle (cfg : config.t) (e : env) :
  let x := e (Sym "_x" "x" 0) in
  let y := e (Sym "_x" "x" 1) in
  let theta := e (Sym "_x" "x" 2) in
  let v := e (Sym "_u" "u" 0) in
  let omega := e (Sym "_u" "u" 1) in
  exists obj rhs x' y' theta',
    mpc_cbf.__init__ cfg = Ok obj
    /\ getitem (model.rhs_list (mpc_cbf.model obj)) "x" = Ok rhs
    /\ eval_vector e rhs = [x'; y'; theta']
    /\ theta' = theta + omega * config.Ts cfg
    /\ (x' - (x + v * cos theta * config.Ts cfg)) ^ 2
       + (y' - (y + v * sin theta * config.Ts cfg)) ^ 2
       = (mpc_cbf.a * (omega * config.Ts cfg)) ^ 2.
Proof.
  intros x y theta v omega.
  destruct (init_ok cfg) as (obj & c & Hobj & _ & Hm & _).
  destruct (x_k1_ok cfg _ Hm) as (rhs & _ & Hrhs & _).
  exists obj, rhs. do 3 eexists.
  split; [exact Hobj|]. split; [exact Hrhs|].
  split; [apply (model_rhs_eval cfg obj rhs e Hobj Hrhs)|].
  fold x y theta v omega.
  assert (Hsc : sin theta * sin theta + cos theta * cos theta = 1).
  { generalize (sin2_cos2 theta). unfold Rsqr. auto. }
  split; [ring|].
  transitivity ((mpc_cbf.a * (omega * config.Ts cfg)) ^ 2
                * (sin theta * sin theta + cos theta * cos theta)).
  - ring.
  - rewrite Hsc. ring.
Qed.

(** ** The cost *)

(** X6.  In set-point mode, with a goal of three entries and a weight
    matrix of three rows, the cost of the model mentions no time-varying
    parameter (the model declares none) and evaluates to the quadratic form
    [d' Q d] of the state error [d = x - goal]; it vanishes at the goal,
    and for a diagonal [Q] with non-negative entries it is never
    negative. *)
Theorem setpoint_cost_quadratic (cfg : config.t)
  (g0 g1 g2 q00 q01 q02 q10 q11 q12 q20 q21 q22 : R) :
  config.control_type cfg = "setpoint"%string ->
  config.goal cfg = [g0; g1; g2] ->
  config.Q cfg = [[q00; q01; q02]; [q10; q11; q12]; [q20; q21; q22]] ->
  exists obj cost,
    mpc_cbf.__init__ cfg = Ok obj
    /\ getitem (model.aux (mpc_cbf.model obj)) "cost" = Ok cost
    /\ model.tvp (mpc_cbf.model obj) = []
    /\ mentions "_tvp" cost = false
    /\ forall e : env,
         let d0 := e (Sym "_x" "x" 0) - g0 in
         let d1 := e (Sym "_x" "x" 1) - g1 in
         let d2 := e (Sym "_x" "x" 2) - g2 in
         eval e cost =
           d0 * (q00 * d0 + q01 * d1 + q02 * d2)
           + d1 * (q10 * d0 + q11 * d1 + q12 * d2)
           + d2 * (q20 * d0 + q21 * d1 + q22 * d2)
         /\ (d0 = 0 -> d1 = 0 -> d2 = 0 -> eval e cost = 0)
         /\ (q01 = 0 -> q02 = 0 -> q10 = 0 -> q12 = 0 -> q20 = 0 ->
             q21 = 0 -> 0 <= q00 -> 0 <= q11 -> 0 <= q22 ->
             0 <= eval e cost).
Proof.
  intros Ht Hg HQ.
  destruct (init_ok cfg) as (obj & c & Hobj & _ & Hm & _).
  exists obj.
  unfold mpc_cbf.define_model, mpc_cbf.get_cost_expression,
    mpc_cbf.init_attrs in Hm.
  cbn [mpc_cbf.control_type mpc_cbf.goal mpc_cbf.Ts mpc_cbf.Q] in Hm.
  rewrite Ht, Hg, HQ in Hm. simpl in Hm. injection Hm as Hm.
  rewrite <- Hm. eexists. split; [exact Hobj|].
  split; [reflexivity|]. split; [reflexivity|]. split; [reflexivity|].
  intros e d0 d1 d2.
  assert (Hval : eval e
            (quad_form
               (vsub_num (symbols "_x" "x" 3) [g0; g1; g2])
               [[q00; q01; q02]; [q10; q11; q12]; [q20; q21; q22]])
            = d0 * (q00 * d0 + q01 * d1 + q02 * d2)
              + d1 * (q10 * d0 + q11 * d1 + q12 * d2)
              + d2 * (q20 * d0 + q21 * d1 + q22 * d2)).
  { simpl. fold d0 d1 d2. ring. }
  split; [exact Hval|]. split.
  - intros E0 E1 E2. rewrite Hval, E0, E1, E2. ring.
  - intros -> -> -> -> -> -> H0 H1 H2. rewrite Hval.
    assert (0 <= d0 * d0) by nra. assert (0 <= d1 * d1) by nra.
    assert (0 <= d2 * d2) by nra. nra.
Qed.

Lemma setpoint_cost_quadratic_witness :
  let cfg := example_config "setpoint" "MPC-CBF" "circular" (1 / 2) in
  let e := mpc_cbf.env_of [5; 0; 0] [0; 0] in
  exists obj cost,
    mpc_cbf.__init__ cfg = Ok obj
    /\ getitem (model.aux (mpc_cbf.model obj)) "cost" = Ok cost
    /\ eval e cost = 0.
Proof.
  intros cfg e.
  destruct (setpoint_cost_quadratic cfg 5 0 0 1 0 0 0 1 0 0 0 1
              eq_refl eq_refl eq_refl)
    as (obj & cost & Hobj & Hcost & _ & _ & Hev).
  exists obj, cost. split; [exact Hobj|]. split; [exact Hcost|].
  apply (proj1 (proj2 (Hev e))); unfold e, mpc_cbf.env_of; simpl; lra.
Defined.

(** X7.  In every other mode the model declares the two set-point
    parameters, and with a weight matrix of three rows the cost evaluates
    to the quadratic form [d' Q d] of the error
    [d = (x - x_sp, y - y_sp, theta - atan2(y - y_sp, x - x_sp))]: the
    heading is compared with the direction from the set point to the
    robot.  The cost mentions the time-varying parameters. *)
Theorem tracking_cost_quadratic (cfg : config.t)
  (q00 q01 q02 q10 q11 q12 q20 q21 q22 : R) :
  config.control_type cfg <> "setpoint"%string ->
  config.Q cfg = [[q00; q01; q02]; [q10; q11; q12]; [q20; q21; q22]] ->
  exists obj cost,
    mpc_cbf.__init__ cfg = Ok obj
    /\ getitem (model.aux (mpc_cbf.model obj)) "cost" = Ok cost
    /\ map fst (model.tvp (mpc_cbf.model obj))
       = ["x_set_point"%string; "y_set_point"%string]
    /\ mentions "_tvp" cost = true
    /\ forall e : env,
         let d0 := e (Sym "_x" "x" 0) - e (Sym "_tvp" "x_set_point" 0) in
         let d1 := e (Sym "_x" "x" 1) - e (Sym "_tvp" "y_set_point" 0) in
         let d2 := e (Sym "_x" "x" 2) - atan2 d1 d0 in
         eval e cost =
           d0 * (q00 * d0 + q01 * d1 + q02 * d2)
           + d1 * (q10 * d0 + q11 * d1 + q12 * d2)
           + d2 * (q20 * d0 + q21 * d1 + q22 * d2).
Proof.
  intros Ht HQ. apply String.eqb_neq in Ht.
  destruct (init_ok cfg) as (obj & c & Hobj & _ & Hm & _).
  exists obj.
  unfold mpc_cbf.define_model, mpc_cbf.get_cost_expression,
    mpc_cbf.init_attrs in Hm.
  cbn [mpc_cbf.control_type mpc_cbf.goal mpc_cbf.Ts mpc_cbf.Q] in Hm.
  rewrite Ht, HQ in Hm. simpl in Hm. injection Hm as Hm.
  rewrite <- Hm. eexists. split; [exact Hobj|].
  split; [reflexivity|]. split; [reflexivity|]. split; [reflexivity|].
  intros e d0 d1 d2. simpl. fold d0 d1. fold d2. ring.
Qed.

Lemma tracking_cost_quadratic_witness :
  let cfg := example_config "traj_tracking" "MPC-CBF" "circular" (1 / 2) in
  exists obj cost,
    mpc_cbf.__init__ cfg = Ok obj
    /\ getitem (model.aux (mpc_cbf.model obj)) "cost" = Ok cost
    /\ mentions "_tvp" cost = true.
Proof.
  intros cfg.
  destruct (tracking_cost_quadratic cfg 1 0 0 0 1 0 0 0 1)
    as (obj & cost & Hobj & Hcost & _ & Hm & _).
  - intros H. discriminate H.
  - reflexivity.
  - exists obj, cost. repeat split; assumption.
Defined.

(** ** The assembled object *)

(** X8.  Whenever [__init__] returns, the controller and the simulator
    have a parameter function exactly in the mode "traj_tracking", and in
    the two modes "setpoint" and "traj_tracking" this is exactly when the
    model declares time-varying parameters: none in set-point mode, the two
    set points otherwise. *)
Theorem tvp_declared_and_supplied (cfg : config.t) (obj : mpc_cbf.MPC) :
  mpc_cbf.__init__ cfg = Ok obj ->
  (controller.tvp_fun (mpc_cbf.mpc obj) <> None
   <-> config.control_type cfg = "traj_tracking"%string)
  /\ (simulator.tvp_fun (mpc_cbf.simulator obj) <> None
      <-> config.control_type cfg = "traj_tracking"%string)
  /\ (config.control_type cfg = "setpoint"%string ->
      model.tvp (mpc_cbf.model obj) = []
      /\ controller.tvp_fun (mpc_cbf.mpc obj) = None
      /\ simulator.tvp_fun (mpc_cbf.simulator obj) = None)
  /\ (config.control_type cfg = "traj_tracking"%string ->
      map fst (model.tvp (mpc_cbf.model obj))
      = ["x_set_point"%string; "y_set_point"%string]
      /\ controller.tvp_fun (mpc_cbf.mpc obj) = Some (mpc_cbf.tvp_fun_mpc cfg)
      /\ exists g,
           simulator.tvp_fun (mpc_cbf.simulator obj) = Some g
           /\ forall t_now,
                map fst (g t_now)
                = ["x_set_point"%string; "y_set_point"%string]).
Proof.
  intros Hobj.
  destruct (init_ok cfg) as (obj' & c & Hobj' & _ & Hm & Hc & Hmpc & Hsim).
  rewrite Hobj in Hobj'. injection Hobj' as <-.
  destruct (define_mpc_ok cfg _ Hm)
    as (c' & cost & prefix & exprs & Hc' & _ & _ & _ & _ & _ & _ & _ & _ & _
        & _ & Htvp & _).
  rewrite Hc in Hc'. injection Hc' as <-.
  destruct (define_model_ok cfg) as (m' & _ & _ & Hm' & _ & _ & _ & _ & _ & Hmt).
  rewrite Hm in Hm'. injection Hm' as <-.
  rewrite Hmpc, Hsim. cbn [controller.tvp_fun controller.set_x0
                           simulator.tvp_fun simulator.set_x0].
  rewrite Htvp.
  unfold mpc_cbf.define_simulator, simulator.get_tvp_template, tvp_zero.
  cbn [mpc_cbf.control_type mpc_cbf.init_attrs].
  destruct (String.eqb_spec (config.control_type cfg) "traj_tracking")
    as [E2|E2];
    cbn [simulator.tvp_fun simulator.setup simulator.set_tvp_fun
         simulator.set_param simulator.new simulator.model].
  - rewrite Hmt, E2. cbn [String.eqb Ascii.eqb Bool.eqb map fst].
    repeat split; intros; try discriminate; try congruence.
    eexists. split; [reflexivity|]. intros t_now. reflexivity.
  - repeat split; intros; try discriminate; try congruence;
      try (exfalso; congruence).
    rewrite Hmt. match goal with H : _ = "setpoint"%string |- _ =>
                   rewrite H end. reflexivity.
Qed.

Lemma tvp_declared_and_supplied_witness :
  let cfg := example_tracking_config "traj_tracking" "circular" in
  exists obj g,
    mpc_cbf.__init__ cfg = Ok obj
    /\ map fst (model.tvp (mpc_cbf.model obj))
       = ["x_set_point"%string; "y_set_point"%string]
    /\ controller.tvp_fun (mpc_cbf.mpc obj) = Some (mpc_cbf.tvp_fun_mpc cfg)
    /\ simulator.tvp_fun (mpc_cbf.simulator obj) = Some g.
Proof.
  intros cfg.
  destruct (init_ok cfg) as (obj & _ & Hobj & _).
  destruct (tvp_declared_and_supplied cfg obj Hobj) as (_ & _ & _ & H).
  destruct (H eq_refl) as (H1 & H2 & g & H3 & _).
  exists obj, g. repeat split; assumption.
Defined.

(** X9.  Whenever [__init__] returns, the controller, the simulator and
    the estimator of the object are set up on one and the same model, the
    one that [define_model] builds, and each of them holds the configured
    initial state; the simulator steps with the sampling time. *)
Theorem init_components_share_model_and_state (cfg : config.t)
  (obj : mpc_cbf.MPC) :
  mpc_cbf.__init__ cfg = Ok obj ->
  mpc_cbf.self_attrs obj = mpc_cbf.init_attrs cfg
  /\ mpc_cbf.define_model (mpc_cbf.init_attrs cfg) = Ok (mpc_cbf.model obj)
  /\ controller.model (mpc_cbf.mpc obj) = mpc_cbf.model obj
  /\ simulator.model (mpc_cbf.simulator obj) = mpc_cbf.model obj
  /\ estimator.model (mpc_cbf.estimator obj) = mpc_cbf.model obj
  /\ controller.x0 (mpc_cbf.mpc obj) = Some (config.x0 cfg)
  /\ simulator.x0 (mpc_cbf.simulator obj) = Some (config.x0 cfg)
  /\ estimator.x0 (mpc_cbf.estimator obj) = Some (config.x0 cfg)
  /\ model.flag_setup (mpc_cbf.model obj) = true
  /\ controller.flag_setup (mpc_cbf.mpc obj) = true
  /\ simulator.flag_setup (mpc_cbf.simulator obj) = true
  /\ simulator.t_step (mpc_cbf.simulator obj) = Some (config.Ts cfg).
Proof.
  intros Hobj.
  destruct (define_model_ok cfg) as (m & _ & _ & Hm & _).
  destruct (define_mpc_ok cfg m Hm) as (c & _ & _ & _ & Hc & Hmod & _).
  assert (Hset : model.flag_setup m = true).
  { revert Hm.
    unfold mpc_cbf.define_model, mpc_cbf.get_cost_expression,
      mpc_cbf.init_attrs.
    cbn [mpc_cbf.control_type mpc_cbf.goal mpc_cbf.Ts mpc_cbf.Q].
    destruct (String.eqb (config.control_type cfg) "setpoint");
      simpl; intros Hm; injection Hm as <-; reflexivity. }
  assert (Hcset : controller.flag_setup c = true).
  { revert Hc. unfold mpc_cbf.define_mpc. intros Hc.
    apply bind_ok in Hc as (mterm & _ & Hc).
    apply bind_ok in Hc as (lterm & _ & Hc).
    apply bind_ok in Hc as (mpc' & _ & Hc).
    injection Hc as <-. reflexivity. }
  revert Hobj. unfold mpc_cbf.__init__. rewrite Hm. cbn [bind].
  rewrite Hc. cbn [bind]. intros Hobj. injection Hobj as <-.
  unfold mpc_cbf.set_init_state, mpc_cbf.define_simulator.
  cbn [mpc_cbf.self_attrs mpc_cbf.model mpc_cbf.mpc mpc_cbf.simulator
       mpc_cbf.estimator mpc_cbf.x0 mpc_cbf.init_attrs mpc_cbf.control_type
       mpc_cbf.Ts controller.model controller.x0 controller.flag_setup
       controller.set_x0 estimator.model estimator.x0 estimator.set_x0
       estimator.new].
  destruct (String.eqb (config.control_type cfg) "traj_tracking");
    repeat split; auto.
Qed.

Lemma init_components_share_model_and_state_witness :
  let cfg := example_tracking_config "setpoint" "circular" in
  exists obj,
    mpc_cbf.__init__ cfg = Ok obj
    /\ controller.model (mpc_cbf.mpc obj) = mpc_cbf.model obj
    /\ simulator.model (mpc_cbf.simulator obj) = mpc_cbf.model obj
    /\ estimator.model (mpc_cbf.estimator obj) = mpc_cbf.model obj
    /\ controller.x0 (mpc_cbf.mpc obj) = Some [0; 0; 0]
    /\ simulator.x0 (mpc_cbf.simulator obj) = Some [0; 0; 0]
    /\ estimator.x0 (mpc_cbf.estimator obj) = Some [0; 0; 0].
Proof.
  intros cfg.
  destruct (init_ok cfg) as (obj & _ & Hobj & _).
  destruct (init_components_share_model_and_state cfg obj Hobj)
    as (_ & _ & H1 & H2 & H3 & H4 & H5 & H6 & _).
  exists obj. repeat split; assumption.
Defined.

(** X10.  Whatever the obstacle and tracking branches add, the controller
    of [__init__] has a zero robust horizon, the configured horizon and
    sampling time, the cost of the model both as stage and as terminal
    cost, the configured input penalty, and input bounds that are
    symmetric: the lower bound is the negated upper bound
    [[v_limit, omega_limit]]. *)
Theorem controller_settings (cfg : config.t) :
  exists obj cost upper,
    mpc_cbf.__init__ cfg = Ok obj
    /\ controller.n_robust (mpc_cbf.mpc obj) = 0%nat
    /\ controller.n_horizon (mpc_cbf.mpc obj) = config.T_horizon cfg
    /\ controller.t_step (mpc_cbf.mpc obj) = config.Ts cfg
    /\ getitem (model.aux (mpc_cbf.model obj)) "cost" = Ok cost
    /\ controller.mterm (mpc_cbf.mpc obj) = Some cost
    /\ controller.lterm (mpc_cbf.mpc obj) = Some cost
    /\ controller.rterm_u (mpc_cbf.mpc obj) = Some (config.R cfg)
    /\ upper = [config.v_limit cfg; config.omega_limit cfg]
    /\ controller.bounds_upper_u (mpc_cbf.mpc obj) = Some upper
    /\ controller.bounds_lower_u (mpc_cbf.mpc obj) = Some (map Ropp upper).
Proof.
  destruct (init_ok cfg) as (obj & c & Hobj & _ & Hm & Hc & Hmpc & _).
  destruct (define_mpc_ok cfg _ Hm)
    as (c' & cost & prefix & exprs & Hc' & _ & H1 & H2 & H3 & H4 & H5 & H6
        & H7 & H8 & H9 & _).
  rewrite Hc in Hc'. injection Hc' as <-.
  exists obj, cost, [config.v_limit cfg; config.omega_limit cfg].
  rewrite Hmpc.
  cbn [controller.n_robust controller.n_horizon controller.t_step
       controller.mterm controller.lterm controller.rterm_u
       controller.bounds_lower_u controller.bounds_upper_u
       controller.set_x0].
  repeat split; auto.
Qed.

(** ** More on the reference parameters *)

(** X11.  The parameter function keeps no memory: in trajectory-tracking
    mode a call [tvp_fun_mpc(t_now)] succeeds and returns the same
    structure whatever earlier calls have left in the shared structure, as
    if it were the first call on the template. *)
Theorem tvp_fun_forgets_history (cfg : config.t) (obj : mpc_cbf.MPC)
  (f : R -> controller.tvp_struct -> result controller.tvp_struct)
  (s : controller.tvp_struct) (t_now : R) :
  mpc_cbf.__init__ cfg = Ok obj ->
  config.control_type cfg = "traj_tracking"%string ->
  controller.tvp_fun (mpc_cbf.mpc obj) = Some f ->
  tvp_reachable f (controller.get_tvp_template (mpc_cbf.mpc obj)) s ->
  exists s',
    f t_now s = Ok s'
    /\ f t_now (controller.get_tvp_template (mpc_cbf.mpc obj)) = Ok s'
    /\ f t_now s' = Ok s'.
Proof.
  intros Hobj Ht Hf Hs.
  destruct (tvp_fun_of_init cfg obj Hobj Ht) as [Hf' Hinv].
  rewrite Hf in Hf'. injection Hf' as ->.
  destruct (Hinv s Hs) as [Hsp Hlen].
  destruct (Hinv _ (tvp_reachable_template _ _)) as [Hsp0 Hlen0].
  unfold mpc_cbf.tvp_fun_mpc.
  destruct (if String.eqb (config.trajectory cfg) "circular" then _ else _)
    as [x_traj y_traj].
  rewrite (assign_set_points s x_traj y_traj Hsp).
  rewrite (assign_set_points _ x_traj y_traj Hsp0).
  rewrite Hlen, Hlen0. eexists. split; [reflexivity|]. split; [reflexivity|].
  rewrite (assign_set_points _ x_traj y_traj
             (set_point_struct_repeat x_traj y_traj _)).
  now rewrite repeat_length.
Qed.

Lemma tvp_fun_forgets_history_witness :
  let cfg := example_config "traj_tracking" "MPC-CBF" "circular" (1 / 2) in
  exists obj f s1 s2,
    mpc_cbf.__init__ cfg = Ok obj
    /\ controller.tvp_fun (mpc_cbf.mpc obj) = Some f
    /\ f 1 (controller.get_tvp_template (mpc_cbf.mpc obj)) = Ok s1
    /\ f 2 s1 = Ok s2
    /\ f 2 (controller.get_tvp_template (mpc_cbf.mpc obj)) = Ok s2.
Proof.
  intros cfg.
  destruct (init_ok cfg) as (obj & _ & Hobj & _).
  destruct (tvp_fun_of_init cfg obj Hobj eq_refl) as [Hf _].
  destruct (tvp_fun_forgets_history cfg obj _ _ 1 Hobj eq_refl Hf
              (tvp_reachable_template _ _)) as (s1 & H1 & _ & _).
  destruct (tvp_fun_forgets_history cfg obj _ s1 2 Hobj eq_refl Hf
              (tvp_reachable_call _ _ _ 1 s1 (tvp_reachable_template _ _) H1))
    as (s2 & H2 & H2' & _).
  exists obj, (mpc_cbf.tvp_fun_mpc cfg), s1, s2. repeat split; assumption.
Defined.

(** What a call of the parameter function leaves at every stage. *)
Lemma tvp_fun_stage (cfg : config.t) (obj : mpc_cbf.MPC)
  (f : R -> controller.tvp_struct -> result controller.tvp_struct)
  (s s' : controller.tvp_struct) (t_now : R) (stage : tvp_values) :
  mpc_cbf.__init__ cfg = Ok obj ->
  config.control_type cfg = "traj_tracking"%string ->
  controller.tvp_fun (mpc_cbf.mpc obj) = Some f ->
  tvp_reachable f (controller.get_tvp_template (mpc_cbf.mpc obj)) s ->
  f t_now s = Ok s' ->
  In stage s' ->
  let wt := config.w cfg * t_now in
  stage =
    if String.eqb (config.trajectory cfg) "circular" then
      [("x_set_point"%string, config.A cfg * cos wt);
       ("y_set_point"%string, config.A cfg * sin wt)]
    else
      [("x_set_point"%string, config.A cfg * cos wt / (sin wt ^ 2 + 1));
       ("y_set_point"%string,
        config.A cfg * sin wt * cos wt / (sin wt ^ 2 + 1))].
Proof.
  intros Hobj Ht Hf Hs Hcall Hin wt.
  destruct (tvp_fun_of_init cfg obj Hobj Ht) as [Hf' Hinv].
  rewrite Hf in Hf'. injection Hf' as ->.
  destruct (Hinv s Hs) as [Hsp Hlen].
  unfold mpc_cbf.tvp_fun_mpc in Hcall. fold wt in Hcall.
  destruct (String.eqb (config.trajectory cfg) "circular");
    rewrite (assign_set_points s _ _ Hsp) in Hcall;
    injection Hcall as <-; now apply repeat_spec in Hin.
Qed.

(** X12.  The circular reference lies on the circle of radius [|A|] about
    the origin: after every call of the parameter function the set point
    [(x, y)] of every stage satisfies [x^2 + y^2 = A^2]. *)
Theorem circular_reference_on_circle (cfg : config.t) (obj : mpc_cbf.MPC)
  (f : R -> controller.tvp_struct -> result controller.tvp_struct)
  (s s' : controller.tvp_struct) (t_now : R) (stage : tvp_values)
  (x y : R) :
  mpc_cbf.__init__ cfg = Ok obj ->
  config.control_type cfg = "traj_tracking"%string ->
  config.trajectory cfg = "circular"%string ->
  controller.tvp_fun (mpc_cbf.mpc obj) = Some f ->
  tvp_reachable f (controller.get_tvp_template (mpc_cbf.mpc obj)) s ->
  f t_now s = Ok s' ->
  In stage s' ->
  getitem stage "x_set_point" = Ok x ->
  getitem stage "y_set_point" = Ok y ->
  x ^ 2 + y ^ 2 = config.A cfg ^ 2.
Proof.
  intros Hobj Ht Hc Hf Hs Hcall Hin Hx Hy.
  rewrite (tvp_fun_stage cfg obj f s s' t_now stage Hobj Ht Hf Hs Hcall Hin)
    in Hx, Hy.
  rewrite Hc in Hx, Hy. simpl in Hx, Hy.
  injection Hx as <-. injection Hy as <-.
  set (wt := config.w cfg * t_now).
  assert (Hsc : sin wt * sin wt + cos wt * cos wt = 1).
  { generalize (sin2_cos2 wt). unfold Rsqr. auto. }
  transitivity (config.A cfg ^ 2 * (sin wt * sin wt + cos wt * cos wt));
    [ring | rewrite Hsc; ring].
Qed.

Lemma circular_reference_on_circle_witness :
  let cfg := example_config "traj_tracking" "MPC-CBF" "circular" (1 / 2) in
  (1 * cos (1 * 3)) ^ 2 + (1 * sin (1 * 3)) ^ 2 = 1 ^ 2.
Proof.
  intros cfg.
  destruct (init_ok cfg) as (obj & _ & Hobj & _).
  destruct (tvp_fun_of_init cfg obj Hobj eq_refl) as [Hf _].
  refine (circular_reference_on_circle cfg obj _
            (controller.get_tvp_template (mpc_cbf.mpc obj)) _ 3
            [("x_set_point"%string, 1 * cos (1 * 3));
             ("y_set_point"%string, 1 * sin (1 * 3))] _ _
            Hobj eq_refl eq_refl Hf (tvp_reachable_template _ _)
            _ _ eq_refl eq_refl).
  - unfold mpc_cbf.tvp_fun_mpc. cbn [config.trajectory cfg example_config
      String.eqb Ascii.eqb Bool.eqb config.A config.w].
    apply assign_set_points.
    apply (proj1 (proj2 (tvp_fun_of_init cfg obj Hobj eq_refl) _
                    (tvp_reachable_template _ _))).
  - rewrite (proj2 (proj2 (tvp_fun_of_init cfg obj Hobj eq_refl) _
                      (tvp_reachable_template _ _))).
    now left.
Defined.

(** X13.  The other reference is a lemniscate of Bernoulli and is defined
    at every time: the denominator [sin(w t)^2 + 1] is at least [1], and
    after every call of the parameter function the set point [(x, y)] of
    every stage satisfies [(x^2 + y^2)^2 = A^2 (x^2 - y^2)],
    [x^2 <= A^2] and [4 y^2 <= A^2]. *)
Theorem figure_eight_reference_on_lemniscate (cfg : config.t)
  (obj : mpc_cbf.MPC)
  (f : R -> controller.tvp_struct -> result controller.tvp_struct)
  (s s' : controller.tvp_struct) (t_now : R) (stage : tvp_values)
  (x y : R) :
  mpc_cbf.__init__ cfg = Ok obj ->
  config.control_type cfg = "traj_tracking"%string ->
  config.trajectory cfg <> "circular"%string ->
  controller.tvp_fun (mpc_cbf.mpc obj) = Some f ->
  tvp_reachable f (controller.get_tvp_template (mpc_cbf.mpc obj)) s ->
  f t_now s = Ok s' ->
  In stage s' ->
  getitem stage "x_set_point" = Ok x ->
  getitem stage "y_set_point" = Ok y ->
  1 <= sin (config.w cfg * t_now) ^ 2 + 1
  /\ (x ^ 2 + y ^ 2) ^ 2 = config.A cfg ^ 2 * (x ^ 2 - y ^ 2)
  /\ x ^ 2 <= config.A cfg ^ 2
  /\ 4 * y ^ 2 <= config.A cfg ^ 2.
Proof.
  intros Hobj Ht Hc Hf Hs Hcall Hin Hx Hy.
  rewrite (tvp_fun_stage cfg obj f s s' t_now stage Hobj Ht Hf Hs Hcall Hin)
    in Hx, Hy.
  apply String.eqb_neq in Hc. rewrite Hc in Hx, Hy. simpl in Hx, Hy.
  injection Hx as <-. injection Hy as <-.
  set (wt := config.w cfg * t_now). set (A := config.A cfg).
  set (sn := sin wt). set (cs := cos wt).
  assert (Hsc : sn * sn + cs * cs = 1).
  { generalize (sin2_cos2 wt). unfold Rsqr. auto. }
  assert (Hs2 : 0 <= sn * sn) by nra.
  assert (Hc2 : 0 <= cs * cs) by nra.
  assert (HD : 1 <= sn * (sn * 1) + 1) by nra.
  set (D := sn * (sn * 1) + 1) in *.
  set (k := / D).
  assert (HDk : D * k = 1) by (unfold k; field; lra).
  assert (Hk0 : 0 < k) by (unfold k; apply Rinv_0_lt_compat; lra).
  assert (Hk1 : k <= 1) by nra.
  assert (Hkk : k * k <= 1) by nra.
  assert (Hx : A * cs / D = A * cs * k) by reflexivity.
  assert (Hy : A * sn * cs / D = A * sn * cs * k) by reflexivity.
  rewrite Hx, Hy. split; [exact HD|]. split; [|split].
  - transitivity ((A * A * (cs * cs) * k * (D * k)) ^ 2).
    + unfold D. ring.
    + rewrite HDk.
      transitivity (A ^ 2 * (A * A * (cs * cs) * (k * k)
                             * (sn * sn + cs * cs - sn * sn)));
        [ring | rewrite Hsc; ring].
  - assert (Hck : cs * cs * (k * k) <= 1) by nra.
    assert (HA : 0 <= A * A) by nra.
    replace ((A * cs * k) ^ 2) with (A * A * (cs * cs * (k * k))) by ring.
    replace (A ^ 2) with (A * A) by ring. nra.
  - assert (H4 : 4 * (sn * sn * (cs * cs)) <= 1).
    { assert (Hsq : 0 <= (sn * sn - cs * cs) * (sn * sn - cs * cs))
        by (generalize (Rle_0_sqr (sn * sn - cs * cs)); unfold Rsqr; auto).
      assert (Hone : (sn * sn + cs * cs) * (sn * sn + cs * cs) = 1)
        by (rewrite Hsc; ring).
      replace (4 * (sn * sn * (cs * cs)))
        with ((sn * sn + cs * cs) * (sn * sn + cs * cs)
              - (sn * sn - cs * cs) * (sn * sn - cs * cs)) by ring.
      lra. }
    assert (H4k : 4 * (sn * sn * (cs * cs)) * (k * k) <= 1) by nra.
    assert (HA : 0 <= A * A) by nra.
    replace (4 * (A * sn * cs * k) ^ 2)
      with (A * A * (4 * (sn * sn * (cs * cs)) * (k * k))) by ring.
    replace (A ^ 2) with (A * A) by ring. nra.
Qed.

Lemma figure_eight_reference_on_lemniscate_witness :
  let x := 1 * cos (1 * 3) / (sin (1 * 3) ^ 2 + 1) in
  let y := 1 * sin (1 * 3) * cos (1 * 3) / (sin (1 * 3) ^ 2 + 1) in
  (x ^ 2 + y ^ 2) ^ 2 = 1 ^ 2 * (x ^ 2 - y ^ 2).
Proof.
  intros x y.
  pose (cfg := example_config "traj_tracking" "MPC-CBF" "lemniscate" (1 / 2)).
  destruct (init_ok cfg) as (obj & _ & Hobj & _).
  destruct (tvp_fun_of_init cfg obj Hobj eq_refl) as [Hf Hinv].
  destruct (Hinv _ (tvp_reachable_template _ _)) as [Hsp Hlen].
  refine (proj1 (proj2 (figure_eight_reference_on_lemniscate cfg obj _
            (controller.get_tvp_template (mpc_cbf.mpc obj)) _ 3
            [("x_set_point"%string, x); ("y_set_point"%string, y)] x y
            Hobj eq_refl _ Hf (tvp_reachable_template _ _)
            _ _ eq_refl eq_refl))).
  - intros H. discriminate H.
  - unfold mpc_cbf.tvp_fun_mpc. cbn [config.trajectory cfg example_config
      String.eqb Ascii.eqb Bool.eqb config.A config.w].
    apply assign_set_points. exact Hsp.
  - rewrite Hlen. now left.
Defined.

(** ** The names of the constraints *)

Lemma str_inj (i j : nat) : str i = str j -> i = j.
Proof.
  unfold str. intros H.
  apply DecimalNat.Unsigned.to_uint_inj.
  assert (H' : Some (Nat.to_uint i) = Some (Nat.to_uint j)).
  { rewrite <- (DecimalString.NilEmpty.usu (Nat.to_uint i)).
    rewrite <- (DecimalString.NilEmpty.usu (Nat.to_uint j)).
    now rewrite H. }
  now injection H'.
Qed.

Lemma append_inj_r (p s1 s2 : string) :
  (p ++ s1)%string = (p ++ s2)%string -> s1 = s2.
Proof.
  induction p as [|c p IH]; simpl; intros H; [exact H|].
  injection H as H. auto.
Qed.

Lemma numbered_names_NoDup (prefix : string) (l : list SX) (k : nat) :
  NoDup (map controller.expr_name
           (map (fun kc =>
                   controller.mk_nl_cons (prefix ++ str (fst kc)) (snd kc) 0)
                (combine (seq k (List.length l)) l))).
Proof.
  revert k. induction l as [|c l IH]; intros k; simpl; constructor.
  - intros Hin. rewrite map_map in Hin. apply in_map_iff in Hin.
    destruct Hin as ([j c'] & Hname & Hin). simpl in Hname.
    apply append_inj_r, str_inj in Hname. subst j.
    apply in_combine_l, in_seq in Hin. lia.
  - apply IH.
Qed.

(** X14.  The constraints of the controller of [__init__] carry pairwise
    different names, in every formulation and for every number of
    obstacles: the counter of the registration loop never repeats. *)
Theorem constraint_names_distinct (cfg : config.t) :
  exists obj,
    mpc_cbf.__init__ cfg = Ok obj
    /\ NoDup (map controller.expr_name
                  (controller.nl_cons_list (mpc_cbf.mpc obj))).
Proof.
  destruct (init_ok cfg) as (obj & c & Hobj & _ & Hm & Hc & Hmpc & _).
  destruct (define_mpc_ok cfg _ Hm)
    as (c' & cost & prefix & exprs & Hc' & _ & _ & _ & _ & _ & _ & _ & _ & _
        & _ & _ & Hcons & _).
  rewrite Hc in Hc'. injection Hc' as <-.
  exists obj. split; [exact Hobj|].
  rewrite Hmpc. cbn [controller.nl_cons_list controller.set_x0].
  rewrite Hcons. apply numbered_names_NoDup.
Qed.

(** ** More on the closed loop *)

Section closed_loop_more.

Variable world : Type.
Variables mpc_step simulator_step estimator_step :
  world -> list R -> result (list R * world).

Let run := mpc_cbf.run_simulation world mpc_step simulator_step
                                  estimator_step.
Let cycles := mpc_cbf.cycles world mpc_step simulator_step estimator_step.

Lemma cycles_app n m x w l x1 w1 l' x2 w2 :
  cycles n x w l x1 w1 -> cycles m x1 w1 l' x2 w2 ->
  cycles (n + m) x w (l ++ l') x2 w2.
Proof.
  unfold cycles. intros Hc1. revert l' x2 w2.
  induction Hc1 as [|? ? ? ? ? ? ? ? ? ? ? ? E1 E2 E3 Hc IH];
    intros l2 xe we Hc2; simpl; [exact Hc2|].
  eapply mpc_cbf.cycles_step; [exact E1 | exact E2 | exact E3 |].
  apply IH. exact Hc2.
Qed.

(** X15.  With a simulation length of zero or less [run_simulation] makes
    no call at all and returns the initial state and the untouched
    objects. *)
Theorem run_simulation_no_cycles (self : mpc_cbf.attrs) (w : world) :
  (mpc_cbf.sim_time self <= 0)%Z ->
  run self w = Ok (mpc_cbf.x0 self, w, []).
Proof.
  intros Hn. unfold run, mpc_cbf.run_simulation, range.
  replace (Z.to_nat (mpc_cbf.sim_time self)) with 0%nat by lia.
  reflexivity.
Qed.

(** X16.  A run can be split: if a run of [n1] cycles ends in the state
    [x1] with the objects in [w1], and a run of [n2] cycles started from
    [x1] and [w1] ends in [x2] and [w2], then the run of [n1 + n2] cycles
    from the initial state ends in [x2] and [w2], and its calls are those
    of the first run followed by those of the second. *)
Theorem run_simulation_split (self1 self2 self12 : mpc_cbf.attrs)
  (w w1 w2 : world) (x1 x2 : list R) (log1 log2 : list mpc_cbf.call) :
  (0 <= mpc_cbf.sim_time self1)%Z ->
  (0 <= mpc_cbf.sim_time self2)%Z ->
  mpc_cbf.sim_time self12
  = (mpc_cbf.sim_time self1 + mpc_cbf.sim_time self2)%Z ->
  mpc_cbf.x0 self12 = mpc_cbf.x0 self1 ->
  mpc_cbf.x0 self2 = x1 ->
  run self1 w = Ok (x1, w1, log1) ->
  run self2 w1 = Ok (x2, w2, log2) ->
  run self12 w = Ok (x2, w2, log1 ++ log2).
Proof.
  intros H1 H2 H12 Hx Hx1 Hr1 Hr2.
  unfold run, mpc_cbf.run_simulation in *.
  apply run_simulation_loop_ok in Hr1 as (l1 & -> & Hc1).
  apply run_simulation_loop_ok in Hr2 as (l2 & -> & Hc2).
  apply run_simulation_loop_ok. exists (l1 ++ l2). split; [reflexivity|].
  rewrite range_length in *. rewrite H12, Hx.
  replace (Z.to_nat (mpc_cbf.sim_time self1 + mpc_cbf.sim_time self2))
    with (Z.to_nat (mpc_cbf.sim_time self1)
          + Z.to_nat (mpc_cbf.sim_time self2))%nat by lia.
  rewrite Hx1 in Hc2. exact (cycles_app _ _ _ _ _ _ _ _ _ _ Hc1 Hc2).
Qed.

End closed_loop_more.

Lemma run_simulation_no_cycles_witness :
  let step := fun (w : nat) (x : list R) => Ok (x, S w) in
  let self :=
    mpc_cbf.mk_attrs (-3) 1 2 [2; 0; 0] 1 1 [] false None None "setpoint"
                     (Some [5; 0; 0]) (1 / 2) [] in
  mpc_cbf.run_simulation nat step step step self 0%nat
  = Ok ([2; 0; 0], 0%nat, []).
Proof.
  intros step self.
  apply (run_simulation_no_cycles nat step step step self 0%nat).
  simpl. lia.
Defined.

Lemma run_simulation_split_witness :
  let step := fun (w : nat) (x : list R) => Ok (x, S w) in
  let self := fun (n : Z) =>
    mpc_cbf.mk_attrs n 1 2 [2; 0; 0] 1 1 [] false None None "setpoint"
                     (Some [5; 0; 0]) (1 / 2) [] in
  exists log1 log2,
    mpc_cbf.run_simulation nat step step step (self 1%Z) 0%nat
    = Ok ([2; 0; 0], 3%nat, log1)
    /\ mpc_cbf.run_simulation nat step step step (self 1%Z) 3%nat
       = Ok ([2; 0; 0], 6%nat, log2)
    /\ mpc_cbf.run_simulation nat step step step (self 2%Z) 0%nat
       = Ok ([2; 0; 0], 6%nat, log1 ++ log2).
Proof.
  intros step self. eexists. eexists.
  split; [reflexivity|]. split; [reflexivity|].
  apply (run_simulation_split nat step step step (self 1%Z) (self 1%Z)
           (self 2%Z) 0%nat 3%nat 6%nat [2; 0; 0] [2; 0; 0]);
    try reflexivity; simpl; lia.
Defined.

(** ** The older variant against the newer one *)




Lemma old_init_fails_without_obstacles_witness :
  let cfg :=
    {| config.sim_time := 2; config.Ts := 1; config.T_horizon := 2;
       config.x0 := [0; 0; 0]; config.v_limit := 1; config.omega_limit := 1;
       config.obstacles_on := false; config.obs := [(0, 0, 1)];
       config.r := 0; config.control_type := "setpoint";
       config.goal := [5; 5; 0]; config.gamma := 1 / 2;
       config.controller := "MPC-CBF"; config.trajectory := "circular";
       config.A := 1; config.w := 1;
       config.Q := [[1; 0; 0]; [0; 1; 0]; [0; 0; 1]];
       config.R := [[1; 0]; [0; 1]] |} in
  mpc_cbf_old.__init__ cfg = Raise (AttributeError "obs")
  /\ exists obj, mpc_cbf.__init__ cfg = Ok obj.
Proof.
  intros cfg. split.
  - apply (proj1 (old_init_fails_without_obstacles cfg)). reflexivity.
  - destruct (init_ok cfg) as (obj & _ & Hobj & _). now exists obj.
Defined.

Lemma old_tvp_fun_unbound_witness :
  let cfg := example_config "traj_tracking" "MPC-CBF" "lemniscate" (1 / 2) in
  mpc_cbf_old.tvp_fun_mpc cfg 0 [] = Raise (UnboundLocalError "x_traj").
Proof.
  intros cfg. apply (old_tvp_fun_unbound cfg 0 []).
  intros H. discriminate H.
Defined.

(** X21.  For the circular trajectory the parameter function of the older
    variant is the one of [mpc_cbf.py]: on every structure and at every
    time the two return the same result. *)
Theorem old_tvp_fun_circular (cfg : config.t) (t_now : R)
  (s : controller.tvp_struct) :
  config.trajectory cfg = "circular"%string ->
  mpc_cbf_old.tvp_fun_mpc cfg t_now s = mpc_cbf.tvp_fun_mpc cfg t_now s.
Proof.
  intros Hc. unfold mpc_cbf_old.tvp_fun_mpc, mpc_cbf.tvp_fun_mpc.
  rewrite Hc. cbn [String.eqb Ascii.eqb Bool.eqb mpc_cbf_old.getlocal bind].
  destruct (controller.assign_all s "x_set_point" _); reflexivity.
Qed.

Lemma old_tvp_fun_circular_witness :
  let cfg := example_config "traj_tracking" "MPC-CBF" "circular" (1 / 2) in
  mpc_cbf_old.tvp_fun_mpc cfg 3 [[("x_set_point"%string, 0);
                                  ("y_set_point"%string, 0)]]
  = mpc_cbf.tvp_fun_mpc cfg 3 [[("x_set_point"%string, 0);
                                ("y_set_point"%string, 0)]].
Proof.
  intros cfg. apply old_tvp_fun_circular. reflexivity.
Defined.

(** ** The constraint builders outside their guard, and the reference *)

(** X22.  The guard of [define_mpc] is what keeps the constraint builders
    from failing: with obstacles off the attributes [obs] and [r] are not
    set, and [get_cbf_constraints], [add_cbf_constraints] and
    [add_obstacle_constraints] raise [AttributeError] for [obs], and the
    barrier [h] of any obstacle raises it for [r]. *)
Theorem constraint_builders_need_obstacles (cfg : config.t)
  (m : model.Model) (c : controller.MPC) (o : obstacle) :
  config.obstacles_on cfg = false ->
  mpc_cbf.define_model (mpc_cbf.init_attrs cfg) = Ok m ->
  mpc_cbf.get_cbf_constraints (mpc_cbf.init_attrs cfg) m
  = Raise (AttributeError "obs")
  /\ mpc_cbf.add_cbf_constraints (mpc_cbf.init_attrs cfg) m c
     = Raise (AttributeError "obs")
  /\ mpc_cbf.add_obstacle_constraints (mpc_cbf.init_attrs cfg) m c
     = Raise (AttributeError "obs")
  /\ mpc_cbf.h (mpc_cbf.init_attrs cfg) (symbols "_x" "x" 3) o
     = Raise (AttributeError "r").
Proof.
  intros Hoff Hm.
  destruct (x_k1_ok cfg m Hm) as (xk1 & Hxk1 & _).
  assert (Hg : mpc_cbf.get_cbf_constraints (mpc_cbf.init_attrs cfg) m
               = Raise (AttributeError "obs")).
  { unfold mpc_cbf.get_cbf_constraints. rewrite Hxk1.
    cbn [bind mpc_cbf.obs mpc_cbf.init_attrs]. now rewrite Hoff. }
  split; [exact Hg|]. split; [|split].
  - unfold mpc_cbf.add_cbf_constraints. now rewrite Hg.
  - unfold mpc_cbf.add_obstacle_constraints.
    cbn [mpc_cbf.obs mpc_cbf.init_attrs]. now rewrite Hoff.
  - destruct o as [[x_obs y_obs] r_obs]. unfold mpc_cbf.h. simpl.
    now rewrite Hoff.
Qed.

Lemma constraint_builders_need_obstacles_witness :
  let cfg :=
    {| config.sim_time := 2; config.Ts := 1; config.T_horizon := 2;
       config.x0 := [0; 0; 0]; config.v_limit := 1; config.omega_limit := 1;
       config.obstacles_on := false; config.obs := [(0, 0, 1)];
       config.r := 0; config.control_type := "setpoint";
       config.goal := [5; 5; 0]; config.gamma := 1 / 2;
       config.controller := "MPC-CBF"; config.trajectory := "circular";
       config.A := 1; config.w := 1;
       config.Q := [[1; 0; 0]; [0; 1; 0]; [0; 0; 1]];
       config.R := [[1; 0]; [0; 1]] |} in
  exists m,
    mpc_cbf.define_model (mpc_cbf.init_attrs cfg) = Ok m
    /\ mpc_cbf.get_cbf_constraints (mpc_cbf.init_attrs cfg) m
       = Raise (AttributeError "obs").
Proof.
  intros cfg.
  destruct (define_model_ok cfg) as (m & _ & _ & Hm & _).
  exists m. split; [exact Hm|].
  exact (proj1 (constraint_builders_need_obstacles cfg m
                  (controller.new m) (0, 0, 1) eq_refl Hm)).
Defined.

Lemma mapM_Forall {A B : Type} (f : A -> result B) (P : B -> Prop)
  (l : list A) (bs : list B) :
  mapM f l = Ok bs -> (forall a b, f a = Ok b -> P b) -> Forall P bs.
Proof.
  revert bs. induction l as [|a l IH]; simpl; intros bs H HP.
  - injection H as <-. constructor.
  - apply bind_ok in H as (b & Hb & H). apply bind_ok in H as (bs' & Hbs & H).
    injection H as <-. constructor; [now apply (HP a) | now apply IH].
Qed.

(** X23.  No safety constraint involves the reference: in every
    formulation each inequality of the controller of [__init__] has the
    upper bound [0] and mentions no time-varying parameter, so it has the
    same value under any two assignments that agree on the state and the
    input. *)
Theorem constraints_independent_of_reference (cfg : config.t) :
  exists obj,
    mpc_cbf.__init__ cfg = Ok obj
    /\ Forall (fun c =>
                 controller.ub c = 0
                 /\ mentions "_tvp" (controller.expr c) = false
                 /\ forall e1 e2 : env,
                      (forall v, var_type v <> "_tvp"%string -> e1 v = e2 v) ->
                      eval e1 (controller.expr c)
                      = eval e2 (controller.expr c))
              (controller.nl_cons_list (mpc_cbf.mpc obj)).
Proof.
  destruct (init_ok cfg) as (obj & c & Hobj & _ & Hm & Hc & Hmpc & _).
  destruct (define_mpc_ok cfg _ Hm)
    as (c' & cost & prefix & exprs & Hc' & _ & _ & _ & _ & _ & _ & _ & _ & _
        & _ & _ & Hcons & Hoff & Hdir & Hcbf).
  rewrite Hc in Hc'. injection Hc' as <-.
  destruct (x_k1_ok cfg _ Hm) as (xk1 & Hxk1 & Hrhs & _).
  destruct (define_model_ok cfg)
    as (m' & B & cost' & Hm' & HB & Hx & Hu & Hr & _).
  rewrite Hm in Hm'. injection Hm' as Hmm.
  exists obj. split; [exact Hobj|].
  rewrite Hmpc. cbn [controller.nl_cons_list controller.set_x0].
  rewrite Hcons.
  assert (Hno : Forall (fun e => mentions "_tvp" e = false) exprs).
  { destruct (config.obstacles_on cfg) eqn:Hon;
      [|rewrite (Hoff eq_refl); constructor].
    destruct (String.eqb (config.controller cfg) "MPC-DC") eqn:Hdc.
    - destruct (Hdir eq_refl eq_refl) as [_ Hds].
      apply (mapM_Forall _ _ _ _ Hds). intros o d Hd.
      rewrite (obs_avoid_ok cfg _ o Hm Hon) in Hd. now injection Hd as <-.
    - destruct (Hcbf eq_refl eq_refl) as [_ Hcs].
      unfold mpc_cbf.get_cbf_constraints in Hcs. rewrite Hxk1 in Hcs.
      cbn [bind mpc_cbf.obs mpc_cbf.init_attrs] in Hcs. rewrite Hon in Hcs.
      cbn [getattr bind] in Hcs.
      apply (mapM_Forall _ _ _ _ Hcs). intros o d Hd.
      rewrite <- Hmm, Hx, Hr in *. simpl in Hrhs. injection Hrhs as <-.
      injection HB as <-. destruct o as [[x_obs y_obs] r_obs].
      unfold mpc_cbf.h in Hd. simpl in Hd. rewrite Hon in Hd. simpl in Hd.
      now injection Hd as <-. }
  clear - Hno. revert Hno. generalize 0%nat.
  induction exprs as [|e exprs IH]; intros k Hno; simpl; constructor.
  - inversion Hno; subst. cbn [controller.ub controller.expr fst snd].
    split; [reflexivity|]. split; [assumption|].
    intros e1 e2 He. now apply (eval_ext "_tvp").
  - apply IH. now inversion Hno.
Qed.

Lemma constraints_independent_of_reference_witness :
  let cfg := example_config "traj_tracking" "MPC-CBF" "circular" (1 / 2) in
  let e1 : env := fun s => if String.eqb (var_type s) "_tvp" then 1 else 0 in
  let e2 : env := fun s => 0 in
  exists obj,
    mpc_cbf.__init__ cfg = Ok obj
    /\ Forall (fun c => eval e1 (controller.expr c)
                        = eval e2 (controller.expr c))
              (controller.nl_cons_list (mpc_cbf.mpc obj)).
Proof.
  intros cfg e1 e2.
  destruct (constraints_independent_of_reference cfg) as (obj & Hobj & Hall).
  exists obj. split; [exact Hobj|].
  apply (Forall_impl _ (P := fun c =>
           controller.ub c = 0
           /\ mentions "_tvp" (controller.expr c) = false
           /\ forall e1 e2 : env,
                (forall v, var_type v <> "_tvp"%string -> e1 v = e2 v) ->
                eval e1 (controller.expr c) = eval e2 (controller.expr c)));
    [|exact Hall].
  intros c (_ & _ & H). apply H. intros v Hv. unfold e1, e2.
  apply String.eqb_neq in Hv. now rewrite Hv.
Defined.

Lemma sys_matrix_B_position_rows_invertible_witness :
  let e := mpc_cbf.env_of [0; 0; 0] [0; 0] in
  exists B b00 b01 b10 b11 v omega,
    mpc_cbf.get_sys_matrix_B (symbols "_x" "x" 3) = Ok B
    /\ map (eval_vector e) B = [[b00; b01]; [b10; b11]; [0; 1]]
    /\ b00 * v + b01 * omega = 1
    /\ b10 * v + b11 * omega = 0
    /\ (b00 * (v + 0) + b01 * (omega + 0) = 1 ->
        b10 * (v + 0) + b11 * (omega + 0) = 0 ->
        v + 0 = v /\ omega + 0 = omega).
Proof.
  intros e.
  destruct (sys_matrix_B_position_rows_invertible e)
    as (B & b00 & b01 & b10 & b11 & HB & Hev & _ & _ & Hinv).
  destruct (Hinv 1 0) as (v & omega & [H1 H2] & Huniq).
  exists B, b00, b01, b10, b11, v, omega.
  repeat split; try assumption; apply (Huniq (v + 0) (omega + 0)); assumption.
Defined.
